(** * Feature toggle cascade

    A shallow embedding of [scripts/feature-toggle-cascade.sql]: the table
    [feature_deactivated_items], the PL/pgSQL trigger function
    [handle_feature_toggle_cascade] and the row trigger
    [trigger_feature_toggle_cascade] on [company_features].

    Tables are lists of rows, SQL statements are functions on tables, the
    trigger function is a function from the database to the database.
    Nullable columns are [option]s and conditions follow SQL's three-valued
    logic: a [WHERE] or [IF] keeps a row (takes a branch) only when its
    condition is true, not when it is false or NULL. *)

From Stdlib Require Import List String Bool NArith ZArith Lia.
Import ListNotations.
Open Scope string_scope.

Set Implicit Arguments.

(** ** Values *)

(** A [uuid] is a 128-bit value; only equality on it is ever used. *)
Definition uuid := N.
Definition timestamptz := Z.

Definition sql_bool := option bool.

(** [a = b] on a nullable boolean column against a literal. *)
Definition sql_eq_bool (a : option bool) (b : bool) : sql_bool :=
  match a with
  | Some x => Some (Bool.eqb x b)
  | None => None
  end.

(** [a = b] on uuids, either of which may be NULL. *)
Definition sql_eq_uuid (a b : option uuid) : sql_bool :=
  match a, b with
  | Some x, Some y => Some (N.eqb x y)
  | _, _ => None
  end.

(** Three-valued [AND]. *)
Definition sql_and (a b : sql_bool) : sql_bool :=
  match a, b with
  | Some false, _ => Some false
  | _, Some false => Some false
  | Some true, Some true => Some true
  | _, _ => None
  end.

(** A condition holds only when it evaluates to true. *)
Definition sql_true (a : sql_bool) : bool :=
  match a with
  | Some true => true
  | _ => false
  end.

(** [a IS DISTINCT FROM b]: NULL is not distinct from NULL. *)
Definition is_distinct_from (a b : option bool) : bool :=
  match a, b with
  | Some x, Some y => negb (Bool.eqb x y)
  | None, None => false
  | _, _ => true
  end.

Definition COALESCE {A : Type} (a b : option A) : option A :=
  match a with
  | Some _ => a
  | None => b
  end.

(** Field access on a record variable that may be NULL ([OLD], [NEW]). *)
Definition field {R A : Type} (r : option R) (f : R -> option A) : option A :=
  match r with
  | Some x => f x
  | None => None
  end.

(** ** Rows *)

(** A row of [coupons], [promotions] or [tables]: the columns the trigger
    function reads or writes, and the remaining columns, which belong to the
    owning subsystem. *)
Record target_row := {
  id : uuid;
  company_id : uuid;
  is_active : option bool;
  other_columns : list (string * option string)
}.

(** A row of [delivery_drivers]; [auth_password] is the column added for the
    driver's direct login. *)
Record driver_row := {
  drv_id : uuid;
  drv_company_id : uuid;
  drv_is_active : option bool;
  is_available : option bool;
  auth_password : option string;
  drv_other_columns : list (string * option string)
}.

(** A row of [feature_deactivated_items]. *)
Record fdi_row := {
  fdi_id : uuid;
  fdi_company_id : uuid;
  feature_key : string;
  table_name : string;
  item_id : uuid;
  deactivated_at : option timestamptz
}.

(** A row of [system_features]. *)
Record sf_row := {
  sf_id : uuid;
  key : option string
}.

(** A row of [company_features], as the trigger sees it in [OLD] and [NEW]. *)
Record cf_row := {
  cf_company_id : option uuid;
  feature_id : option uuid;
  cf_is_active : option bool
}.

(** ** The database *)

Record db := {
  system_features : list sf_row;
  company_features : list cf_row;
  coupons : list target_row;
  promotions : list target_row;
  delivery_drivers : list driver_row;
  tables : list target_row;
  feature_deactivated_items : list fdi_row
}.

Definition with_company_features (t : list cf_row) (s : db) : db :=
  {| system_features := system_features s;
     company_features := t;
     coupons := coupons s;
     promotions := promotions s;
     delivery_drivers := delivery_drivers s;
     tables := tables s;
     feature_deactivated_items := feature_deactivated_items s |}.

Definition with_coupons (t : list target_row) (s : db) : db :=
  {| system_features := system_features s;
     company_features := company_features s;
     coupons := t;
     promotions := promotions s;
     delivery_drivers := delivery_drivers s;
     tables := tables s;
     feature_deactivated_items := feature_deactivated_items s |}.

Definition with_promotions (t : list target_row) (s : db) : db :=
  {| system_features := system_features s;
     company_features := company_features s;
     coupons := coupons s;
     promotions := t;
     delivery_drivers := delivery_drivers s;
     tables := tables s;
     feature_deactivated_items := feature_deactivated_items s |}.

Definition with_delivery_drivers (t : list driver_row) (s : db) : db :=
  {| system_features := system_features s;
     company_features := company_features s;
     coupons := coupons s;
     promotions := promotions s;
     delivery_drivers := t;
     tables := tables s;
     feature_deactivated_items := feature_deactivated_items s |}.

Definition with_tables (t : list target_row) (s : db) : db :=
  {| system_features := system_features s;
     company_features := company_features s;
     coupons := coupons s;
     promotions := promotions s;
     delivery_drivers := delivery_drivers s;
     tables := t;
     feature_deactivated_items := feature_deactivated_items s |}.

Definition with_feature_deactivated_items (t : list fdi_row) (s : db) : db :=
  {| system_features := system_features s;
     company_features := company_features s;
     coupons := coupons s;
     promotions := promotions s;
     delivery_drivers := delivery_drivers s;
     tables := tables s;
     feature_deactivated_items := t |}.

(** ** Statements *)

(** [UPDATE t SET ... WHERE cond]: rows are rewritten in place. *)
Definition UPDATE {R : Type} (set : R -> R) (cond : R -> bool) (t : list R)
  : list R :=
  map (fun r => if cond r then set r else r) t.

(** [DELETE FROM t WHERE cond]. *)
Definition DELETE {R : Type} (cond : R -> bool) (t : list R) : list R :=
  filter (fun r => negb (cond r)) t.

(** [SELECT col FROM t WHERE cond]. *)
Definition SELECT {R A : Type} (col : R -> A) (cond : R -> bool) (t : list R)
  : list A :=
  map col (filter cond t).

(** [x IN (subquery)] on uuids. *)
Definition uuid_in (x : uuid) (l : list uuid) : bool :=
  existsb (N.eqb x) l.

(** What the statement's defaults draw from the session: [now()] is fixed for
    the transaction, [gen_random_uuid()] gives the n-th row of a statement
    its own value.  The generator is taken not to repeat a primary key. *)
Record defaults := {
  now : timestamptz;
  gen_random_uuid : nat -> uuid
}.

(** The conflict target [(company_id, feature_key, table_name, item_id)]. *)
Definition conflict_target (r : fdi_row) : uuid * string * string * uuid :=
  (fdi_company_id r, feature_key r, table_name r, item_id r).

Definition conflicts (r r' : fdi_row) : bool :=
  N.eqb (fdi_company_id r) (fdi_company_id r')
  && String.eqb (feature_key r) (feature_key r')
  && String.eqb (table_name r) (table_name r')
  && N.eqb (item_id r) (item_id r').

(** One row proposed for insertion, [ON CONFLICT ... DO NOTHING]. *)
Definition insert_on_conflict_do_nothing (t : list fdi_row) (r : fdi_row)
  : list fdi_row :=
  if existsb (conflicts r) t then t else t ++ [r].

(** [INSERT INTO feature_deactivated_items (company_id, feature_key,
    table_name, item_id) SELECT c, k, tbl, id ... ON CONFLICT ... DO NOTHING]:
    the selected ids are proposed one after the other; [n] counts the rows
    proposed so far in the statement. *)
Fixpoint INSERT_SELECT (d : defaults) (n : nat) (c : uuid) (k tbl : string)
  (ids : list uuid) (t : list fdi_row) : list fdi_row :=
  match ids with
  | [] => t
  | i :: ids' =>
      INSERT_SELECT d (S n) c k tbl ids'
        (insert_on_conflict_do_nothing t
           {| fdi_id := gen_random_uuid d n;
              fdi_company_id := c;
              feature_key := k;
              table_name := tbl;
              item_id := i;
              deactivated_at := Some (now d) |})
  end.

(** ** Conditions of the trigger function *)

(** [company_id = v_company_id AND is_active = true]. *)
Definition active_of (c : uuid) (r : target_row) : bool :=
  sql_true (sql_and (Some (N.eqb (company_id r) c))
                    (sql_eq_bool (is_active r) true)).

Definition drv_active_of (c : uuid) (r : driver_row) : bool :=
  sql_true (sql_and (Some (N.eqb (drv_company_id r) c))
                    (sql_eq_bool (drv_is_active r) true)).

(** [company_id = v_company_id AND feature_key = v_feature_key AND
    table_name = tbl] on [feature_deactivated_items]. *)
Definition saved_for (c : uuid) (k tbl : string) (r : fdi_row) : bool :=
  N.eqb (fdi_company_id r) c
  && String.eqb (feature_key r) k
  && String.eqb (table_name r) tbl.

(** [SELECT item_id FROM feature_deactivated_items WHERE ...]. *)
Definition saved_ids (c : uuid) (k tbl : string) (t : list fdi_row)
  : list uuid :=
  SELECT item_id (saved_for c k tbl) t.

(** The [SET] clauses. *)
Definition set_is_active (b : bool) (r : target_row) : target_row :=
  {| id := id r;
     company_id := company_id r;
     is_active := Some b;
     other_columns := other_columns r |}.

Definition set_drv_is_active (b : bool) (r : driver_row) : driver_row :=
  {| drv_id := drv_id r;
     drv_company_id := drv_company_id r;
     drv_is_active := Some b;
     is_available := is_available r;
     auth_password := auth_password r;
     drv_other_columns := drv_other_columns r |}.

Definition set_is_available (b : bool) (r : driver_row) : driver_row :=
  {| drv_id := drv_id r;
     drv_company_id := drv_company_id r;
     drv_is_active := drv_is_active r;
     is_available := Some b;
     auth_password := auth_password r;
     drv_other_columns := drv_other_columns r |}.

(** ** The two halves of the cascade, statement by statement *)

(** The [INSERT ... SELECT ... ON CONFLICT DO NOTHING] of each branch. *)
Definition save_coupons (d : defaults) (c : uuid) (k : string) (s : db) : db :=
  with_feature_deactivated_items
    (INSERT_SELECT d 0 c k "coupons"
       (SELECT id (active_of c) (coupons s))
       (feature_deactivated_items s)) s.

Definition save_promotions (d : defaults) (c : uuid) (k : string) (s : db)
  : db :=
  with_feature_deactivated_items
    (INSERT_SELECT d 0 c k "promotions"
       (SELECT id (active_of c) (promotions s))
       (feature_deactivated_items s)) s.

Definition save_delivery_drivers (d : defaults) (c : uuid) (k : string)
  (s : db) : db :=
  with_feature_deactivated_items
    (INSERT_SELECT d 0 c k "delivery_drivers"
       (SELECT drv_id (drv_active_of c) (delivery_drivers s))
       (feature_deactivated_items s)) s.

Definition save_tables (d : defaults) (c : uuid) (k : string) (s : db) : db :=
  with_feature_deactivated_items
    (INSERT_SELECT d 0 c k "tables"
       (SELECT id (active_of c) (tables s))
       (feature_deactivated_items s)) s.

(** The [UPDATE ... SET is_active = false ...] of each branch. *)
Definition switch_off_coupons (c : uuid) (s : db) : db :=
  with_coupons (UPDATE (set_is_active false) (active_of c) (coupons s)) s.

Definition switch_off_promotions (c : uuid) (s : db) : db :=
  with_promotions (UPDATE (set_is_active false) (active_of c) (promotions s)) s.

Definition switch_off_delivery_drivers (c : uuid) (s : db) : db :=
  with_delivery_drivers
    (UPDATE (fun r => set_is_available false (set_drv_is_active false r))
            (drv_active_of c) (delivery_drivers s)) s.

Definition switch_off_tables (c : uuid) (s : db) : db :=
  with_tables (UPDATE (set_is_active false) (active_of c) (tables s)) s.

(** The [UPDATE ... SET is_active = true WHERE id IN (...)] of each branch. *)
Definition restore_coupons (c : uuid) (k : string) (s : db) : db :=
  with_coupons
    (UPDATE (set_is_active true)
       (fun r => uuid_in (id r)
                   (saved_ids c k "coupons" (feature_deactivated_items s)))
       (coupons s)) s.

Definition restore_promotions (c : uuid) (k : string) (s : db) : db :=
  with_promotions
    (UPDATE (set_is_active true)
       (fun r => uuid_in (id r)
                   (saved_ids c k "promotions" (feature_deactivated_items s)))
       (promotions s)) s.

Definition restore_delivery_drivers (c : uuid) (k : string) (s : db) : db :=
  with_delivery_drivers
    (UPDATE (set_drv_is_active true)
       (fun r => uuid_in (drv_id r)
                   (saved_ids c k "delivery_drivers"
                      (feature_deactivated_items s)))
       (delivery_drivers s)) s.

Definition restore_tables (c : uuid) (k : string) (s : db) : db :=
  with_tables
    (UPDATE (set_is_active true)
       (fun r => uuid_in (id r)
                   (saved_ids c k "tables" (feature_deactivated_items s)))
       (tables s)) s.

(** The [DELETE FROM feature_deactivated_items WHERE ...] of each branch. *)
Definition clean_up (c : uuid) (k tbl : string) (s : db) : db :=
  with_feature_deactivated_items
    (DELETE (saved_for c k tbl) (feature_deactivated_items s)) s.

(** [CASE v_feature_key ...] of the branch taken when the feature is being
    deactivated. *)
Definition deactivated_case (d : defaults) (c : uuid) (k : string) (s : db)
  : db :=
  if String.eqb k "coupons" then
    switch_off_coupons c (save_coupons d c k s)
  else if String.eqb k "promotions" then
    switch_off_promotions c (save_promotions d c k s)
  else if String.eqb k "drivers" then
    switch_off_delivery_drivers c (save_delivery_drivers d c k s)
  else if String.eqb k "tables" then
    switch_off_tables c (save_tables d c k s)
  else s.

(** [CASE v_feature_key ...] of the branch taken when the feature is being
    reactivated. *)
Definition reactivated_case (c : uuid) (k : string) (s : db) : db :=
  if String.eqb k "coupons" then
    clean_up c k "coupons" (restore_coupons c k s)
  else if String.eqb k "promotions" then
    clean_up c k "promotions" (restore_promotions c k s)
  else if String.eqb k "drivers" then
    clean_up c k "delivery_drivers" (restore_delivery_drivers c k s)
  else if String.eqb k "tables" then
    clean_up c k "tables" (restore_tables c k s)
  else s.

(** ** The trigger function *)

Inductive tg_op := INSERT_op | UPDATE_op | DELETE_op.

Definition tg_op_eqb (a b : tg_op) : bool :=
  match a, b with
  | INSERT_op, INSERT_op | UPDATE_op, UPDATE_op | DELETE_op, DELETE_op => true
  | _, _ => false
  end.

(** [SELECT key INTO v FROM system_features WHERE id = x]: the first row
    found, NULL when there is none. *)
Definition select_key_into (x : option uuid) (t : list sf_row)
  : option string :=
  match filter (fun r => sql_true (sql_eq_uuid (Some (sf_id r)) x)) t with
  | r :: _ => key r
  | [] => None
  end.

(** The condition of the first [IF]: the flag went from true to false. *)
Definition being_deactivated (op : tg_op) (OLD NEW : option cf_row) : bool :=
  sql_true
    (sql_and
       (sql_and (Some (tg_op_eqb op UPDATE_op))
                (sql_eq_bool (field OLD cf_is_active) true))
       (sql_eq_bool (field NEW cf_is_active) false)).

(** The condition of the [ELSIF]: the flag went from false to true. *)
Definition being_reactivated (op : tg_op) (OLD NEW : option cf_row) : bool :=
  sql_true
    (sql_and
       (sql_and (Some (tg_op_eqb op UPDATE_op))
                (sql_eq_bool (field OLD cf_is_active) false))
       (sql_eq_bool (field NEW cf_is_active) true)).

(** [handle_feature_toggle_cascade()]: the database it leaves and the row it
    returns. *)
Definition handle_feature_toggle_cascade (d : defaults) (TG_OP : tg_op)
  (OLD NEW : option cf_row) (s : db) : db * option cf_row :=
  let v_feature_key :=
    select_key_into (COALESCE (field NEW feature_id) (field OLD feature_id))
                    (system_features s) in
  let v_company_id :=
    COALESCE (field NEW cf_company_id) (field OLD cf_company_id) in
  match v_feature_key, v_company_id with
  | Some k, Some c =>
      if being_deactivated TG_OP OLD NEW then
        (deactivated_case d c k s, COALESCE NEW OLD)
      else if being_reactivated TG_OP OLD NEW then
        (reactivated_case c k s, COALESCE NEW OLD)
      else (s, COALESCE NEW OLD)
  | _, _ => (s, COALESCE NEW OLD)
  end.

(** [trigger_feature_toggle_cascade]: [AFTER UPDATE ... FOR EACH ROW WHEN
    (OLD.is_active IS DISTINCT FROM NEW.is_active)].  The value an AFTER
    trigger returns is ignored. *)
Definition trigger_feature_toggle_cascade (d : defaults) (OLD NEW : cf_row)
  (s : db) : db :=
  if is_distinct_from (cf_is_active OLD) (cf_is_active NEW) then
    fst (handle_feature_toggle_cascade d UPDATE_op (Some OLD) (Some NEW) s)
  else s.

(** The two variables of the trigger function. *)
Definition v_feature_key (OLD NEW : option cf_row) (s : db) : option string :=
  select_key_into (COALESCE (field NEW feature_id) (field OLD feature_id))
                  (system_features s).

Definition v_company_id (OLD NEW : option cf_row) : option uuid :=
  COALESCE (field NEW cf_company_id) (field OLD cf_company_id).

(** The row the administrator writes: the feature [f] of company [c]
    switched to [b]. *)
Definition flag_row (c f : uuid) (b : bool) : cf_row :=
  {| cf_company_id := Some c; feature_id := Some f; cf_is_active := Some b |}.

(** ** Histories of the database *)

(** Replace the [n]-th row of a table. *)
Fixpoint replace_row {R : Type} (n : nat) (x : R) (t : list R) : list R :=
  match t, n with
  | [], _ => []
  | _ :: t', O => x :: t'
  | r :: t', S n' => r :: replace_row n' x t'
  end.

(** What other writers may do to the database in one step.  The table
    [feature_deactivated_items] is closed to them by its row level security
    policy, so every discipline leaves it alone; that is part of [step]. *)
Definition discipline := db -> db -> Prop.

(** No restriction on the other tables. *)
Definition any_writer : discipline := fun _ _ => True.


(** [id] is the primary key of each target table. *)
Definition primary_keys (s : db) : Prop :=
  NoDup (map id (coupons s))
  /\ NoDup (map id (promotions s))
  /\ NoDup (map drv_id (delivery_drivers s))
  /\ NoDup (map id (tables s)).



(** [UPDATE company_features SET ... ] on the [n]-th row: the row is
    rewritten, then the row trigger runs on the old and the new row. *)
Definition update_company_features (d : defaults) (n : nat) (NEW : cf_row)
  (s : db) : db :=
  match nth_error (company_features s) n with
  | Some OLD =>
      trigger_feature_toggle_cascade d OLD NEW
        (with_company_features (replace_row n NEW (company_features s)) s)
  | None => s
  end.

Inductive step (ext : discipline) : db -> db -> Prop :=
| step_update_flag : forall d s n NEW,
    step ext s (update_company_features d n NEW s)
| step_company_deleted : forall s c,
    (* company_id ... REFERENCES companies(id) ON DELETE CASCADE *)
    step ext s
      (with_feature_deactivated_items
         (DELETE (fun r => N.eqb (fdi_company_id r) c)
                 (feature_deactivated_items s)) s)
| step_other_writer : forall s s',
    ext s s' ->
    feature_deactivated_items s' = feature_deactivated_items s ->
    step ext s s'.

(** The table [feature_deactivated_items] is created empty. *)
Definition created (s : db) : Prop := feature_deactivated_items s = [].


(** The databases a history can lead to, from those [init] admits. *)
Inductive reachable (init : db -> Prop) (ext : discipline) : db -> Prop :=
| reachable_init : forall s, init s -> reachable init ext s
| reachable_step : forall s s',
    reachable init ext s -> step ext s s' -> reachable init ext s'.



(** [table_name tbl] is the table a feature key cascades to, as the two
    [CASE] statements pair them. *)
Definition target_table (k : string) : option string :=
  if String.eqb k "coupons" then Some "coupons"
  else if String.eqb k "promotions" then Some "promotions"
  else if String.eqb k "drivers" then Some "delivery_drivers"
  else if String.eqb k "tables" then Some "tables"
  else None.

(** The ids a deactivation selects from a target table:
    [SELECT id FROM tbl WHERE company_id = c AND is_active = true]. *)
Definition active_ids (tbl : string) (c : uuid) (s : db) : list uuid :=
  if String.eqb tbl "coupons" then SELECT id (active_of c) (coupons s)
  else if String.eqb tbl "promotions" then
    SELECT id (active_of c) (promotions s)
  else if String.eqb tbl "delivery_drivers" then
    SELECT drv_id (drv_active_of c) (delivery_drivers s)
  else if String.eqb tbl "tables" then SELECT id (active_of c) (tables s)
  else [].

(** The identity and activation of the rows of a target table, whichever
    table it is: [(id, company_id, is_active)]. *)
Definition activation_of (tbl : string) (s : db)
  : list (uuid * uuid * option bool) :=
  if String.eqb tbl "coupons" then
    map (fun r => (id r, company_id r, is_active r)) (coupons s)
  else if String.eqb tbl "promotions" then
    map (fun r => (id r, company_id r, is_active r)) (promotions s)
  else if String.eqb tbl "delivery_drivers" then
    map (fun r => (drv_id r, drv_company_id r, drv_is_active r))
        (delivery_drivers s)
  else if String.eqb tbl "tables" then
    map (fun r => (id r, company_id r, is_active r)) (tables s)
  else [].

(** ** The deactivating branch, one statement at a time *)

(** The first statement of the branch [CASE v_feature_key] takes: the
    [INSERT ... SELECT]. *)
Definition save_case (d : defaults) (c : uuid) (k : string) (s : db) : db :=
  if String.eqb k "coupons" then save_coupons d c k s
  else if String.eqb k "promotions" then save_promotions d c k s
  else if String.eqb k "drivers" then save_delivery_drivers d c k s
  else if String.eqb k "tables" then save_tables d c k s
  else s.

(** Its second statement: the [UPDATE]. *)
Definition switch_off_case (c : uuid) (k : string) (s : db) : db :=
  if String.eqb k "coupons" then switch_off_coupons c s
  else if String.eqb k "promotions" then switch_off_promotions c s
  else if String.eqb k "drivers" then switch_off_delivery_drivers c s
  else if String.eqb k "tables" then switch_off_tables c s
  else s.

(** Row for row, a target row that differs between [s] and [s'] has its id
    among the items saved in [s] for [(c, k)] and its table. *)
Definition changed_rows_are_saved (c : uuid) (k : string) (s s' : db) : Prop :=
  Forall2 (fun r r' => r' <> r ->
             In (id r)
                (saved_ids c k "coupons" (feature_deactivated_items s)))
    (coupons s) (coupons s')
  /\ Forall2 (fun r r' => r' <> r ->
                In (id r)
                   (saved_ids c k "promotions" (feature_deactivated_items s)))
       (promotions s) (promotions s')
  /\ Forall2 (fun r r' => r' <> r ->
                In (drv_id r)
                   (saved_ids c k "delivery_drivers"
                      (feature_deactivated_items s)))
       (delivery_drivers s) (delivery_drivers s')
  /\ Forall2 (fun r r' => r' <> r ->
                In (id r)
                   (saved_ids c k "tables" (feature_deactivated_items s)))
       (tables s) (tables s').

(** Row for row, a target row whose id is not among the items saved in [s]
    for [(c, k)] and its table is in [s'] what it was in [s]. *)
Definition outside_snapshot_untouched (c : uuid) (k : string) (s s' : db)
  : Prop :=
  Forall2 (fun r r' =>
             ~ In (id r)
                  (saved_ids c k "coupons" (feature_deactivated_items s)) ->
             r' = r)
    (coupons s) (coupons s')
  /\ Forall2 (fun r r' =>
                ~ In (id r)
                     (saved_ids c k "promotions"
                        (feature_deactivated_items s)) ->
                r' = r)
       (promotions s) (promotions s')
  /\ Forall2 (fun r r' =>
                ~ In (drv_id r)
                     (saved_ids c k "delivery_drivers"
                        (feature_deactivated_items s)) ->
                r' = r)
       (delivery_drivers s) (delivery_drivers s')
  /\ Forall2 (fun r r' =>
                ~ In (id r)
                     (saved_ids c k "tables" (feature_deactivated_items s)) ->
                r' = r)
       (tables s) (tables s').

(** Row for row, no row that is active in [s] is anything else in [s']. *)
Definition never_switched_off (s s' : db) : Prop :=
  Forall2 (fun r r' => is_active r = Some true -> is_active r' = Some true)
    (coupons s) (coupons s')
  /\ Forall2 (fun r r' => is_active r = Some true -> is_active r' = Some true)
       (promotions s) (promotions s')
  /\ Forall2 (fun r r' =>
                drv_is_active r = Some true -> drv_is_active r' = Some true)
       (delivery_drivers s) (delivery_drivers s')
  /\ Forall2 (fun r r' => is_active r = Some true -> is_active r' = Some true)
       (tables s) (tables s').

(** What a deactivation followed by a restoration makes of the rows of the
    table of [k] that were active and of company [c]: a row of [coupons],
    [promotions] or [tables] is what it was; a row of [delivery_drivers] is
    what it was with [is_available] false. *)
Definition restored_rows (c : uuid) (k : string) (s s' : db) : Prop :=
  (k = "coupons" ->
   Forall2 (fun r r' => active_of c r = true -> r' = r)
     (coupons s) (coupons s'))
  /\ (k = "promotions" ->
      Forall2 (fun r r' => active_of c r = true -> r' = r)
        (promotions s) (promotions s'))
  /\ (k = "drivers" ->
      Forall2 (fun r r' =>
                 drv_active_of c r = true -> r' = set_is_available false r)
        (delivery_drivers s) (delivery_drivers s'))
  /\ (k = "tables" ->
      Forall2 (fun r r' => active_of c r = true -> r' = r)
        (tables s) (tables s')).

(** The feature [f] of company [c] switched off, and switched on again. *)
Definition switch_off (d : defaults) (c f : uuid) (s : db) : db :=
  trigger_feature_toggle_cascade d (flag_row c f true) (flag_row c f false) s.

Definition switch_on (d : defaults) (c f : uuid) (s : db) : db :=
  trigger_feature_toggle_cascade d (flag_row c f false) (flag_row c f true) s.

(** A row of the view [activation_of] that is active and of company [c]. *)
Definition active_view (c : uuid) (v : uuid * uuid * option bool) : Prop :=
  snd (fst v) = c /\ snd v = Some true.

(** ** What a cascade may change in a target row *)

(** Two rows of [coupons], [promotions] or [tables] that agree on every
    column but [is_active]. *)
Definition only_is_active_differs (r r' : target_row) : Prop :=
  id r' = id r
  /\ company_id r' = company_id r
  /\ other_columns r' = other_columns r.

(** Two rows of [delivery_drivers] that agree on every column but
    [is_active] and [is_available]. *)
Definition only_driver_flags_differ (r r' : driver_row) : Prop :=
  drv_id r' = drv_id r
  /\ drv_company_id r' = drv_company_id r
  /\ auth_password r' = auth_password r
  /\ drv_other_columns r' = drv_other_columns r.

(** Row for row, the four target tables of [s'] are those of [s] up to the
    activation columns: no row added, none removed, none reordered. *)
Definition target_rows_kept (s s' : db) : Prop :=
  Forall2 only_is_active_differs (coupons s) (coupons s')
  /\ Forall2 only_is_active_differs (promotions s) (promotions s')
  /\ Forall2 only_driver_flags_differ (delivery_drivers s) (delivery_drivers s')
  /\ Forall2 only_is_active_differs (tables s) (tables s').


(** ** What the saved items look like *)

(** A saved item as the deactivating branches write them: its table is the
    table of its feature key, and it carries the time it was saved. *)
Definition written_by_cascade (e : fdi_row) : Prop :=
  target_table (feature_key e) = Some (table_name e)
  /\ deactivated_at e <> None.

(** Row for row, a row of the table of [k] whose id is among the items saved
    in [s] for [(c, k)] is in [s'] that row with [is_active] true. *)
Definition saved_rows_activated (c : uuid) (k : string) (s s' : db) : Prop :=
  (k = "coupons" ->
   Forall2 (fun r r' =>
              In (id r)
                 (saved_ids c k "coupons" (feature_deactivated_items s)) ->
              r' = set_is_active true r)
     (coupons s) (coupons s'))
  /\ (k = "promotions" ->
      Forall2 (fun r r' =>
                 In (id r)
                    (saved_ids c k "promotions"
                       (feature_deactivated_items s)) ->
                 r' = set_is_active true r)
        (promotions s) (promotions s'))
  /\ (k = "drivers" ->
      Forall2 (fun r r' =>
                 In (drv_id r)
                    (saved_ids c k "delivery_drivers"
                       (feature_deactivated_items s)) ->
                 r' = set_drv_is_active true r)
        (delivery_drivers s) (delivery_drivers s'))
  /\ (k = "tables" ->
      Forall2 (fun r r' =>
                 In (id r)
                    (saved_ids c k "tables" (feature_deactivated_items s)) ->
                 r' = set_is_active true r)
        (tables s) (tables s')).

(** ** A small database to compute with *)

Module Example.

Definition d0 : defaults :=
  {| now := 1000%Z; gen_random_uuid := fun n => N.of_nat (900 + n) |}.

Definition T1 : uuid := 1%N.
Definition T2 : uuid := 2%N.

Definition f_coupons : uuid := 10%N.
Definition f_drivers : uuid := 11%N.
Definition f_loyalty : uuid := 12%N.

Definition coupons_on : cf_row := flag_row T1 f_coupons true.
Definition coupons_off : cf_row := flag_row T1 f_coupons false.
Definition drivers_on : cf_row := flag_row T1 f_drivers true.
Definition drivers_off : cf_row := flag_row T1 f_drivers false.
Definition loyalty_on : cf_row := flag_row T1 f_loyalty true.
Definition loyalty_off : cf_row := flag_row T1 f_loyalty false.

Definition coupon (i c : uuid) (a : bool) : target_row :=
  {| id := i; company_id := c; is_active := Some a;
     other_columns := [("code", Some "WELCOME")] |}.

Definition driver (i c : uuid) (a v : bool) : driver_row :=
  {| drv_id := i; drv_company_id := c; drv_is_active := Some a;
     is_available := Some v; auth_password := Some "s3cret";
     drv_other_columns := [("name", Some "Ana")] |}.

Definition s0 : db :=
  {| system_features :=
       [ {| sf_id := f_coupons; key := Some "coupons" |};
         {| sf_id := f_drivers; key := Some "drivers" |};
         {| sf_id := f_loyalty; key := Some "loyalty" |} ];
     company_features :=
       [ coupons_on; drivers_on; loyalty_on ];
     coupons :=
       [ coupon 101%N T1 true; coupon 102%N T1 true; coupon 103%N T1 true;
         coupon 104%N T1 false; coupon 201%N T2 true ];
     promotions := [];
     delivery_drivers :=
       [ driver 301%N T1 true true; driver 302%N T1 true false;
         driver 303%N T1 false false ];
     tables := [];
     feature_deactivated_items := [] |}.

(** The administrator switches [coupons] off for [T1], then on again. *)
Definition s1 : db := update_company_features d0 0 coupons_off s0.
Definition s2 : db := update_company_features d0 0 coupons_on s1.

(** While [coupons] is off, somebody activates the fourth coupon. *)
Definition s1' : db :=
  with_coupons
    (UPDATE (set_is_active true) (fun r => N.eqb (id r) 104) (coupons s1)) s1.
Definition s2' : db := update_company_features d0 0 coupons_on s1'.

(** The administrator switches [drivers] off for [T1], then on again. *)
Definition t1 : db := update_company_features d0 1 drivers_off s0.
Definition t2 : db := update_company_features d0 1 drivers_on t1.



End Example.

(** * The store setup status function

    [supabase/functions/get-store-setup-status/index.ts]: the handler passed
    to [serve].  What the handler receives from outside (the parsed request
    body, the client, the outcome of its two queries) is an argument; the
    response it returns is the result.  Its console output is not modelled. *)

Module StoreSetup.

(** JavaScript strings are sequences of UTF-16 code units. *)
Definition js_string := list N.

Definition lit (s : string) : js_string :=
  map Ascii.N_of_ascii (list_ascii_of_string s).

Fixpoint js_eqb (a b : js_string) : bool :=
  match a, b with
  | [], [] => true
  | x :: a', y :: b' => N.eqb x y && js_eqb a' b'
  | _, _ => false
  end.

(** The code units [String.prototype.trim] strips: WhiteSpace (TAB, VT, FF,
    ZWNBSP and the space separators) and LineTerminator (LF, CR, LS, PS). *)
Definition is_white (c : N) : bool :=
  match c with
  | 9 | 10 | 11 | 12 | 13 | 32 | 160 | 5760 | 8232 | 8233 | 8239 | 8287
  | 12288 | 65279 => true
  | _ => N.leb 8192 c && N.leb c 8202
  end%N.

Fixpoint trimStart (s : js_string) : js_string :=
  match s with
  | c :: s' => if is_white c then trimStart s' else s
  | [] => []
  end.

Definition trim (s : js_string) : js_string :=
  rev (trimStart (rev (trimStart s))).

(** What [req.json()] can resolve to. *)
#[warnings="-register-all"]
Inductive json :=
| JNull
| JBool (b : bool)
| JNumber (source : string)
| JString (s : js_string)
| JArray (items : list json)
| JObject (members : list (js_string * json)).

(** Property [k] of a parsed object: of several members of that name the
    last one counts. *)
Fixpoint get (k : js_string) (members : list (js_string * json))
  : option json :=
  match members with
  | [] => None
  | (k', v) :: rest =>
      match get k rest with
      | Some v' => Some v'
      | None => if js_eqb k' k then Some v else None
      end
  end.

Record request := {
  method : js_string;
  (** [None]: [req.json()] rejects *)
  parsed_body : option json
}.

(** The slug of the request: [body.slug.trim()] when [typeof body?.slug] is
    [string], the empty string otherwise, where [body] is
    [await req.json().catch(() => ({}))]. *)
Definition slug_of (req : request) : js_string :=
  match parsed_body req with
  | Some (JObject members) =>
      match get (lit "slug") members with
      | Some (JString s) => trim s
      | _ => []
      end
  | _ => []
  end.

(** A value thrown or reported as [error]. *)
Record js_error := {
  instanceof_Error : bool;
  message : js_string
}.

(** What awaiting a [maybeSingle()] query gives: an exception, a result with
    [error] set, or a result with [data] (null when no row matches). *)
Inductive outcome (A : Type) :=
| Threw (e : js_error)
| Failed (e : js_error)
| Data (row : option A).

Arguments Threw {A} e.
Arguments Failed {A} e.
Arguments Data {A} row.

(** The columns selected from [companies]. *)
Record company_row := {
  id : js_string;
  name : option js_string;
  logo_url : option js_string;
  cover_url : option js_string;
  niche : option js_string;
  phone : option js_string;
  email : option js_string;
  pix_key : option js_string
}.

(** The columns selected from [company_payment_settings]. *)
Record payment_settings_row := {
  mercadopago_enabled : option bool;
  mercadopago_verified : option bool;
  picpay_enabled : option bool;
  picpay_verified : option bool;
  active_payment_gateway : option js_string
}.

Record world := {
  (** [Some e]: [createClient] throws [e] *)
  createClient : option js_error;
  (** [from("companies").select(...).eq("slug", slug).eq("status",
      "approved").maybeSingle()] *)
  companies : js_string -> outcome company_row;
  (** [from("company_payment_settings").select(...).eq("company_id",
      id).maybeSingle()] *)
  company_payment_settings : js_string -> outcome payment_settings_row
}.

Inductive MissingKey :=
| key_name | key_logo | key_cover | key_niche | key_phone | key_email
| key_payment.

(** The object given to [JSON.stringify], if any: [{ ok: false, error }] or
    [{ ok: true, blocked, missing }]. *)
Inductive payload :=
| no_body
| error_body (error : js_string)
| report_body (blocked : bool) (missing : list MissingKey).

Record response := {
  status : nat;
  headers : list (string * string);
  body : payload
}.

Definition corsHeaders : list (string * string) :=
  [ ("Access-Control-Allow-Origin", "*");
    ("Access-Control-Allow-Headers",
     "authorization, x-client-info, apikey, content-type") ].

(** [{ ...corsHeaders, "Content-Type": "application/json" }] *)
Definition json_headers : list (string * string) :=
  (corsHeaders ++ [ ("Content-Type", "application/json") ])%list.

(** Truthiness of a string or null. *)
Definition truthy (s : option js_string) : bool :=
  match s with
  | Some (_ :: _) => true
  | _ => false
  end.

(** Truthiness of a boolean or null. *)
Definition truthy_flag (b : option bool) : bool :=
  match b with
  | Some true => true
  | _ => false
  end.

(** [!company.name || !company.name.trim()] *)
Definition name_missing (company : company_row) : bool :=
  negb (truthy (name company))
  || negb (truthy (option_map trim (name company))).

(** The pushes of the six profile keys, in the order of the source. *)
Definition profile_missing (company : company_row) : list MissingKey :=
  ((if name_missing company then [key_name] else [])
   ++ (if negb (truthy (logo_url company)) then [key_logo] else [])
   ++ (if negb (truthy (cover_url company)) then [key_cover] else [])
   ++ (if negb (truthy (niche company)) then [key_niche] else [])
   ++ (if negb (truthy (phone company)) then [key_phone] else [])
   ++ (if negb (truthy (email company)) then [key_email] else []))%list.

(** [paymentSettings?.active_payment_gateway || "mercadopago"] *)
Definition activeGateway (ps : option payment_settings_row) : js_string :=
  match ps with
  | Some r =>
      if truthy (active_payment_gateway r)
      then match active_payment_gateway r with
           | Some g => g
           | None => lit "mercadopago"
           end
      else lit "mercadopago"
  | None => lit "mercadopago"
  end.

Definition onlinePaymentOk (ps : option payment_settings_row) : bool :=
  if js_eqb (activeGateway ps) (lit "mercadopago") then
    match ps with
    | Some r =>
        truthy_flag (mercadopago_enabled r)
        && truthy_flag (mercadopago_verified r)
    | None => false
    end
  else if js_eqb (activeGateway ps) (lit "picpay") then
    match ps with
    | Some r =>
        truthy_flag (picpay_enabled r) && truthy_flag (picpay_verified r)
    | None => false
    end
  else false.

(** [pixOk || onlinePaymentOk] *)
Definition paymentOk (company : company_row)
  (ps : option payment_settings_row) : bool :=
  truthy (pix_key company) || onlinePaymentOk ps.

Definition is_empty {A : Type} (l : list A) : bool :=
  match l with
  | [] => true
  | _ :: _ => false
  end.

(** The response of the [catch] clause. *)
Definition caught (e : js_error) : response :=
  {| status := 500;
     headers := json_headers;
     body := error_body (if instanceof_Error e then message e
                         else lit "Unknown error") |}.

(** The final response: [{ ok: true, blocked, missing }]. *)
Definition report (missing : list MissingKey) : response :=
  {| status := 200;
     headers := json_headers;
     body := report_body (negb (is_empty missing)) missing |}.

(** The handler given to [serve]. *)
Definition handler (w : world) (req : request) : response :=
  if js_eqb (method req) (lit "OPTIONS") then
    {| status := 200; headers := corsHeaders; body := no_body |}
  else
    let slug := slug_of req in
    if is_empty slug then
      {| status := 400;
         headers := json_headers;
         body := error_body (lit "slug is required") |}
    else
      match createClient w with
      | Some e => caught e
      | None =>
          match companies w slug with
          | Threw e => caught e
          | Failed companyError => caught companyError
          | Data None =>
              {| status := 404;
                 headers := json_headers;
                 body := error_body (lit "Company not found") |}
          | Data (Some company) =>
              let missing := profile_missing company in
              match company_payment_settings w (id company) with
              | Threw e => caught e
              | Failed paymentError =>
                  report (missing ++ [key_payment])%list
              | Data paymentSettings =>
                  if negb (paymentOk company paymentSettings)
                  then report (missing ++ [key_payment])%list
                  else report missing
              end
          end
      end.

(** ** Vocabulary of the statements *)

(** The request that posts [{ "slug": s }]. *)
Definition post_slug (s : js_string) : request :=
  {| method := lit "POST";
     parsed_body := Some (JObject [ (lit "slug", JString s) ]) |}.

(** The keys in the order the handler pushes them. *)
Definition all_keys : list MissingKey :=
  [ key_name; key_logo; key_cover; key_niche; key_phone; key_email;
    key_payment ].

(** [l] is [l'] with some elements left out. *)
Fixpoint subsequence {A : Type} (l l' : list A) : Prop :=
  match l, l' with
  | [], _ => True
  | _ :: _, [] => False
  | x :: t, y :: t' => (x = y /\ subsequence t t') \/ subsequence l t'
  end.

(** A string or null that is neither null nor empty. *)
Definition filled (s : option js_string) : Prop :=
  exists c t, s = Some (c :: t).

(** A string or null that holds a code unit that is not white space. *)
Definition not_blank (s : option js_string) : Prop :=
  exists t c, s = Some t /\ In c t /\ is_white c = false.

(** The gateway the settings select is [g], and it is enabled and
    verified. *)
Definition gateway_ready (ps : option payment_settings_row) : Prop :=
  exists r,
    ps = Some r
    /\ ((activeGateway ps = lit "mercadopago"
         /\ mercadopago_enabled r = Some true
         /\ mercadopago_verified r = Some true)
        \/ (activeGateway ps = lit "picpay"
            /\ picpay_enabled r = Some true
            /\ picpay_verified r = Some true)).

(** The request gets as far as the company [company]: it is no preflight,
    it carries a slug, the client is created and the lookup finds the
    company. *)
Definition found (w : world) (req : request) (company : company_row) : Prop :=
  js_eqb (method req) (lit "OPTIONS") = false
  /\ slug_of req <> []
  /\ createClient w = None
  /\ companies w (slug_of req) = Data (Some company).

(** An example: a shop with everything but a cover and a payment method. *)
Definition shop : company_row :=
  {| id := lit "c1";
     name := Some (lit "Pizzaria");
     logo_url := Some (lit "logo.png");
     cover_url := None;
     niche := Some (lit "pizza");
     phone := Some (lit "11999990000");
     email := Some (lit "a@b.c");
     pix_key := None |}.

(** The same shop with a PIX key. *)
Definition shop_with_pix : company_row :=
  {| id := id shop;
     name := name shop;
     logo_url := logo_url shop;
     cover_url := cover_url shop;
     niche := niche shop;
     phone := phone shop;
     email := email shop;
     pix_key := Some (lit "pix@shop") |}.

(** A world where the shop has no payment settings row. *)
Definition no_settings (pix : option js_string) : world :=
  {| createClient := None;
     companies := fun slug =>
       if js_eqb slug (lit "pizzaria")
       then Data (Some match pix with
                       | None => shop
                       | Some _ => shop_with_pix
                       end)
       else Data None;
     company_payment_settings := fun _ => Data None |}.

Definition timeout : js_error :=
  {| instanceof_Error := false; message := lit "timeout" |}.

(** A world where the payment settings query reports an error. *)
Definition broken_payments : world :=
  {| createClient := None;
     companies := companies (no_settings (Some (lit "pix@shop")));
     company_payment_settings := fun _ => Failed timeout |}.

End StoreSetup.

(** * Email template variables

    [supabase/functions/_shared/email-templates.ts]:
    [replaceTemplateVariables] and [replaceSubjectVariables].  The regular
    expression engine of the language is no part of the repository: the two
    functions take it as an argument.  The statements use one thing of it,
    how it treats a key without syntax characters: the pattern then matches
    the text [{{key}}] and nothing else. *)

Module EmailTemplates.

Import StoreSetup.

(** The string the template literal gives to [new RegExp]: the key between
    escaped braces. *)
Definition pattern_source (key : js_string) : js_string :=
  (lit "\{\{" ++ key ++ lit "\}\}")%list.

(** [str.replace(new RegExp(source, 'g'), replacement)] as a function of
    [source], [replacement] and [str]; [None] when [new RegExp] throws. *)
Definition engine : Type :=
  js_string -> js_string -> js_string -> option js_string.

Fixpoint starts_with (pat s : js_string) : bool :=
  match pat, s with
  | [], _ => true
  | _ :: _, [] => false
  | x :: pat', y :: s' => N.eqb x y && starts_with pat' s'
  end.

(** GetSubstitution for a match without capture groups: [$$] gives a dollar
    sign, [$&] the matched text, [$`] the text before the match and [$'] the
    text after it; any other dollar sign stands for itself. *)
Fixpoint GetSubstitution (matched before after replacement : js_string)
  : js_string :=
  match replacement with
  | [] => []
  | c :: rest =>
      if N.eqb c 36 then
        match rest with
        | c' :: rest' =>
            if N.eqb c' 36 then
              36%N :: GetSubstitution matched before after rest'
            else if N.eqb c' 38 then
              (matched ++ GetSubstitution matched before after rest')%list
            else if N.eqb c' 96 then
              (before ++ GetSubstitution matched before after rest')%list
            else if N.eqb c' 39 then
              (after ++ GetSubstitution matched before after rest')%list
            else c :: GetSubstitution matched before after rest
        | [] => [c]
        end
      else c :: GetSubstitution matched before after rest
  end.

(** What [str.replace(regex, replacement)] gives for a global [regex] that
    matches the text [pat] and nothing else: the matches are found from left
    to right and do not overlap.  [position] is the index of [rest] in
    [str]; [skip] counts the code units of the current match still to
    pass. *)
Fixpoint replace_from (pat replacement str : js_string) (position skip : nat)
  (rest : js_string) : js_string :=
  match rest with
  | [] => []
  | c :: rest' =>
      match skip with
      | S skip' => replace_from pat replacement str (S position) skip' rest'
      | O =>
          if starts_with pat rest then
            (GetSubstitution pat (firstn position str)
               (skipn (position + List.length pat) str) replacement
             ++ replace_from pat replacement str (S position)
                  (List.length pat - 1) rest')%list
          else c :: replace_from pat replacement str (S position) 0 rest'
      end
  end.

Definition replace (pat replacement str : js_string) : js_string :=
  replace_from pat replacement str 0 0 str.

(** A value of [Record<string, string | number>]; a number is given by the
    text [String] prints for it. *)
Inductive value :=
| VString (s : js_string)
| VNumber (printed : js_string).

Definition String_of (v : value) : js_string :=
  match v with
  | VString s => s
  | VNumber printed => printed
  end.

(** [replaceTemplateVariables(html, variables)], with [variables] given as
    the list [Object.entries] yields; [None] when it throws. *)
Fixpoint replaceTemplateVariables (RegExp_replace : engine)
  (html : js_string) (variables : list (js_string * value))
  : option js_string :=
  match variables with
  | [] => Some html
  | (key, v) :: variables' =>
      match RegExp_replace (pattern_source key) (String_of v) html with
      | Some result =>
          replaceTemplateVariables RegExp_replace result variables'
      | None => None
      end
  end.

Definition replaceSubjectVariables (RegExp_replace : engine)
  (subject : js_string) (variables : list (js_string * value))
  : option js_string :=
  replaceTemplateVariables RegExp_replace subject variables.

(** ** Vocabulary of the statements *)

(** [^ $ \ . * + ? ( ) [ ] { } |] *)
Definition syntax_character (c : N) : bool :=
  match c with
  | 94 | 36 | 92 | 46 | 42 | 43 | 63 | 40 | 41 | 91 | 93 | 123 | 125 | 124 =>
      true
  | _ => false
  end%N.

(** The placeholder of a key. *)
Definition placeholder (key : js_string) : js_string :=
  (lit "{{" ++ key ++ lit "}}")%list.

(** The engine on a key without syntax characters: the pattern is the
    placeholder taken literally. *)
Definition literal_on_plain_keys (RegExp_replace : engine) : Prop :=
  forall key replacement str,
    existsb syntax_character key = false ->
    RegExp_replace (pattern_source key) replacement str
    = Some (replace (placeholder key) replacement str).

(** [pat] occurs in [s]. *)
Definition occurs (pat s : js_string) : Prop :=
  exists a b, s = (a ++ pat ++ b)%list.

Fixpoint occursb (pat s : js_string) : bool :=
  starts_with pat s
  || match s with
     | [] => false
     | _ :: s' => occursb pat s'
     end.

(** No key holds a syntax character. *)
Definition plain_keys (variables : list (js_string * value)) : Prop :=
  forall key v, In (key, v) variables ->
    existsb syntax_character key = false.

(** ** An engine to compute with *)

(** The key of a pattern source, read back. *)
Definition key_of_source (source : js_string) : option js_string :=
  if starts_with (lit "\{\{") source then
    if js_eqb (skipn (List.length source - 8) (skipn 4 source)) (lit "\}\}")
    then Some (firstn (List.length source - 8) (skipn 4 source))
    else None
  else None.

(** An engine that knows the keys without syntax characters and refuses the
    others. *)
Definition plain_engine : engine := fun source replacement str =>
  match key_of_source source with
  | Some key =>
      if existsb syntax_character key then None
      else Some (replace (placeholder key) replacement str)
  | None => None
  end.

End EmailTemplates.

(** * Properties *)

(** ** Conditions *)

Lemma conflicts_iff (r r' : fdi_row) :
  conflicts r r' = true <-> conflict_target r = conflict_target r'.
Proof.
  unfold conflicts, conflict_target.
  rewrite !andb_true_iff, !N.eqb_eq, !String.eqb_eq.
  split.
  - intros [[[H1 H2] H3] H4]. congruence.
  - intros H. inversion H. auto.
Qed.

Lemma saved_for_iff (c : uuid) (k tbl : string) (r : fdi_row) :
  saved_for c k tbl r = true
  <-> fdi_company_id r = c /\ feature_key r = k /\ table_name r = tbl.
Proof.
  unfold saved_for.
  rewrite !andb_true_iff, N.eqb_eq, !String.eqb_eq. tauto.
Qed.

Lemma uuid_in_iff (x : uuid) (l : list uuid) :
  uuid_in x l = true <-> In x l.
Proof.
  unfold uuid_in. rewrite existsb_exists. split.
  - intros [y [Hy E]]. apply N.eqb_eq in E. subst. assumption.
  - intros H. exists x. split; [assumption | apply N.eqb_refl].
Qed.

Lemma active_of_iff (c : uuid) (r : target_row) :
  active_of c r = true <-> company_id r = c /\ is_active r = Some true.
Proof.
  unfold active_of, sql_eq_bool.
  destruct (N.eqb_spec (company_id r) c) as [E | E];
    destruct (is_active r) as [[|]|]; simpl; split;
    try tauto; try discriminate; intros [? ?]; congruence.
Qed.

Lemma drv_active_of_iff (c : uuid) (r : driver_row) :
  drv_active_of c r = true
  <-> drv_company_id r = c /\ drv_is_active r = Some true.
Proof.
  unfold drv_active_of, sql_eq_bool.
  destruct (N.eqb_spec (drv_company_id r) c) as [E | E];
    destruct (drv_is_active r) as [[|]|]; simpl; split;
    try tauto; try discriminate; intros [? ?]; congruence.
Qed.

Lemma active_of_switched_off (c : uuid) (r : target_row) :
  active_of c (set_is_active false r) = false.
Proof.
  unfold active_of. simpl. destruct (N.eqb (company_id r) c); reflexivity.
Qed.

Lemma drv_active_of_switched_off (c : uuid) (r : driver_row) :
  drv_active_of c (set_is_available false (set_drv_is_active false r)) = false.
Proof.
  unfold drv_active_of. simpl.
  destruct (N.eqb (drv_company_id r) c); reflexivity.
Qed.

(** ** Statements on one table *)

Section OneTable.

Variable R : Type.
Variable cond : R -> bool.

Lemma SELECT_nothing (A : Type) (col : R -> A) (t : list R) :
  (forall r, In r t -> cond r = false) -> SELECT col cond t = [].
Proof.
  intros H. unfold SELECT.
  induction t as [| r t IH]; simpl; [reflexivity |].
  rewrite (H r (in_eq r t)). apply IH.
  intros r' Hr'. apply H. right. assumption.
Qed.

Lemma In_SELECT (A : Type) (col : R -> A) (t : list R) (x : A) :
  In x (SELECT col cond t) <-> exists r, In r t /\ cond r = true /\ col r = x.
Proof.
  unfold SELECT. rewrite in_map_iff. split.
  - intros [r [E Hr]]. apply filter_In in Hr. exists r. tauto.
  - intros [r [Hr [Hc E]]]. exists r. split; [assumption |].
    apply filter_In. tauto.
Qed.

Lemma In_DELETE (t : list R) (r : R) :
  In r (DELETE cond t) <-> In r t /\ cond r = false.
Proof.
  unfold DELETE. rewrite filter_In, negb_true_iff. tauto.
Qed.

Lemma DELETE_twice (t : list R) : DELETE cond (DELETE cond t) = DELETE cond t.
Proof.
  unfold DELETE. apply forallb_filter_id, forallb_filter.
Qed.

Lemma SELECT_after_DELETE (A : Type) (col : R -> A) (t : list R) :
  SELECT col cond (DELETE cond t) = [].
Proof.
  apply SELECT_nothing. intros r Hr. apply In_DELETE in Hr. tauto.
Qed.

Variable set : R -> R.

Lemma UPDATE_nothing (t : list R) :
  (forall r, In r t -> cond r = false) -> UPDATE set cond t = t.
Proof.
  intros H. unfold UPDATE. rewrite <- (map_id t) at 2.
  apply map_ext_in. intros r Hr. rewrite (H r Hr). reflexivity.
Qed.

(** A condition that the [SET] clause falsifies selects nothing after the
    update. *)
Hypothesis set_falsifies : forall r, cond (set r) = false.

Lemma cond_after_UPDATE (t : list R) (r : R) :
  In r (UPDATE set cond t) -> cond r = false.
Proof.
  unfold UPDATE. rewrite in_map_iff. intros [r0 [E _]]. subst r.
  destruct (cond r0) eqn:C; [apply set_falsifies | assumption].
Qed.

Lemma UPDATE_twice (t : list R) :
  UPDATE set cond (UPDATE set cond t) = UPDATE set cond t.
Proof. apply UPDATE_nothing, cond_after_UPDATE. Qed.

Lemma SELECT_after_UPDATE (A : Type) (col : R -> A) (t : list R) :
  SELECT col cond (UPDATE set cond t) = [].
Proof. apply SELECT_nothing, cond_after_UPDATE. Qed.

End OneTable.

(** ** Inserting saved items *)

Lemma insert_keeps (t : list fdi_row) (x r : fdi_row) :
  In r t -> In r (insert_on_conflict_do_nothing t x).
Proof.
  unfold insert_on_conflict_do_nothing.
  destruct (existsb (conflicts x) t); [auto | intros; apply in_or_app; auto].
Qed.

Lemma insert_origin (t : list fdi_row) (x r : fdi_row) :
  In r (insert_on_conflict_do_nothing t x) -> In r t \/ r = x.
Proof.
  unfold insert_on_conflict_do_nothing.
  destruct (existsb (conflicts x) t); [auto |].
  intros H. apply in_app_or in H. destruct H as [H | [H | []]]; auto.
Qed.

Lemma insert_covers (t : list fdi_row) (x : fdi_row) :
  exists r, In r (insert_on_conflict_do_nothing t x)
            /\ conflict_target r = conflict_target x.
Proof.
  unfold insert_on_conflict_do_nothing.
  destruct (existsb (conflicts x) t) eqn:E.
  - apply existsb_exists in E. destruct E as [r [Hr C]].
    apply conflicts_iff in C. exists r. split; [assumption | congruence].
  - exists x. split; [apply in_or_app; right; left |]; reflexivity.
Qed.



Section InsertSelect.

Variables (d : defaults) (c : uuid) (k tbl : string).

Lemma INSERT_SELECT_keeps (ids : list uuid) :
  forall n t r, In r t -> In r (INSERT_SELECT d n c k tbl ids t).
Proof.
  induction ids as [| i ids IH]; simpl; intros n t r H; [assumption |].
  apply IH, insert_keeps, H.
Qed.

Lemma INSERT_SELECT_origin (ids : list uuid) :
  forall n t r, In r (INSERT_SELECT d n c k tbl ids t) ->
    In r t
    \/ (fdi_company_id r = c /\ feature_key r = k /\ table_name r = tbl
        /\ In (item_id r) ids).
Proof.
  induction ids as [| i ids IH]; simpl; intros n t r H; [auto |].
  apply IH in H. destruct H as [H | [Hc [Hk [Ht Hi]]]].
  - apply insert_origin in H. destruct H as [H | H]; [auto |].
    subst r. simpl. right. repeat split. left. reflexivity.
  - right. repeat split; try assumption. right. assumption.
Qed.

Lemma INSERT_SELECT_covers (ids : list uuid) :
  forall n t i, In i ids ->
    exists r, In r (INSERT_SELECT d n c k tbl ids t)
              /\ conflict_target r = (c, k, tbl, i).
Proof.
  induction ids as [| i0 ids IH]; simpl; intros n t i H; [contradiction |].
  destruct H as [H | H].
  - subst i0.
    destruct (insert_covers t
                {| fdi_id := gen_random_uuid d n; fdi_company_id := c;
                   feature_key := k; table_name := tbl; item_id := i;
                   deactivated_at := Some (now d) |}) as [r [Hr E]].
    exists r. split; [apply INSERT_SELECT_keeps, Hr | exact E].
  - apply IH, H.
Qed.


End InsertSelect.

Lemma In_saved_ids (c : uuid) (k tbl : string) (t : list fdi_row) (i : uuid) :
  In i (saved_ids c k tbl t)
  <-> exists e, In e t /\ conflict_target e = (c, k, tbl, i).
Proof.
  unfold saved_ids. rewrite In_SELECT. unfold conflict_target.
  split; intros [e [He H]]; exists e; (split; [assumption |]).
  - destruct H as [H E]. apply saved_for_iff in H.
    destruct H as [H1 [H2 H3]]. rewrite H1, H2, H3, E. reflexivity.
  - inversion H. split; [apply saved_for_iff; repeat split | reflexivity].
Qed.


(** ** What each half of the cascade does to each table *)

Ltac by_key k :=
  destruct (String.eqb_spec k "coupons") as [-> | ?];
  [ | destruct (String.eqb_spec k "promotions") as [-> | ?];
  [ | destruct (String.eqb_spec k "drivers") as [-> | ?];
  [ | destruct (String.eqb_spec k "tables") as [-> | ?] ]]].

Section Cascade.

Variables (d : defaults) (c : uuid) (k : string) (s : db).

Lemma system_features_deactivated :
  system_features (deactivated_case d c k s) = system_features s.
Proof. unfold deactivated_case. by_key k; reflexivity. Qed.

Lemma company_features_deactivated :
  company_features (deactivated_case d c k s) = company_features s.
Proof. unfold deactivated_case. by_key k; reflexivity. Qed.

Lemma coupons_deactivated :
  coupons (deactivated_case d c k s) =
  if String.eqb k "coupons"
  then UPDATE (set_is_active false) (active_of c) (coupons s)
  else coupons s.
Proof. unfold deactivated_case. by_key k; reflexivity. Qed.

Lemma promotions_deactivated :
  promotions (deactivated_case d c k s) =
  if String.eqb k "promotions"
  then UPDATE (set_is_active false) (active_of c) (promotions s)
  else promotions s.
Proof. unfold deactivated_case. by_key k; reflexivity. Qed.

Lemma delivery_drivers_deactivated :
  delivery_drivers (deactivated_case d c k s) =
  if String.eqb k "drivers"
  then UPDATE (fun r => set_is_available false (set_drv_is_active false r))
              (drv_active_of c) (delivery_drivers s)
  else delivery_drivers s.
Proof. unfold deactivated_case. by_key k; reflexivity. Qed.

Lemma tables_deactivated :
  tables (deactivated_case d c k s) =
  if String.eqb k "tables"
  then UPDATE (set_is_active false) (active_of c) (tables s)
  else tables s.
Proof. unfold deactivated_case. by_key k; reflexivity. Qed.

Lemma saved_deactivated :
  feature_deactivated_items (deactivated_case d c k s) =
  match target_table k with
  | Some tbl =>
      INSERT_SELECT d 0 c k tbl (active_ids tbl c s)
        (feature_deactivated_items s)
  | None => feature_deactivated_items s
  end.
Proof.
  unfold deactivated_case, target_table. by_key k; reflexivity.
Qed.

Lemma system_features_reactivated :
  system_features (reactivated_case c k s) = system_features s.
Proof. unfold reactivated_case. by_key k; reflexivity. Qed.

Lemma company_features_reactivated :
  company_features (reactivated_case c k s) = company_features s.
Proof. unfold reactivated_case. by_key k; reflexivity. Qed.

Lemma coupons_reactivated :
  coupons (reactivated_case c k s) =
  if String.eqb k "coupons"
  then UPDATE (set_is_active true)
         (fun r => uuid_in (id r)
            (saved_ids c k "coupons" (feature_deactivated_items s)))
         (coupons s)
  else coupons s.
Proof. unfold reactivated_case. by_key k; reflexivity. Qed.

Lemma promotions_reactivated :
  promotions (reactivated_case c k s) =
  if String.eqb k "promotions"
  then UPDATE (set_is_active true)
         (fun r => uuid_in (id r)
            (saved_ids c k "promotions" (feature_deactivated_items s)))
         (promotions s)
  else promotions s.
Proof. unfold reactivated_case. by_key k; reflexivity. Qed.

Lemma delivery_drivers_reactivated :
  delivery_drivers (reactivated_case c k s) =
  if String.eqb k "drivers"
  then UPDATE (set_drv_is_active true)
         (fun r => uuid_in (drv_id r)
            (saved_ids c k "delivery_drivers"
               (feature_deactivated_items s)))
         (delivery_drivers s)
  else delivery_drivers s.
Proof. unfold reactivated_case. by_key k; reflexivity. Qed.

Lemma tables_reactivated :
  tables (reactivated_case c k s) =
  if String.eqb k "tables"
  then UPDATE (set_is_active true)
         (fun r => uuid_in (id r)
            (saved_ids c k "tables" (feature_deactivated_items s)))
         (tables s)
  else tables s.
Proof. unfold reactivated_case. by_key k; reflexivity. Qed.

Lemma saved_reactivated :
  feature_deactivated_items (reactivated_case c k s) =
  match target_table k with
  | Some tbl => DELETE (saved_for c k tbl) (feature_deactivated_items s)
  | None => feature_deactivated_items s
  end.
Proof.
  unfold reactivated_case, target_table. by_key k; reflexivity.
Qed.

Lemma deactivated_unknown :
  target_table k = None -> deactivated_case d c k s = s.
Proof.
  unfold deactivated_case, target_table.
  by_key k; try discriminate. reflexivity.
Qed.

Lemma reactivated_unknown :
  target_table k = None -> reactivated_case c k s = s.
Proof.
  unfold reactivated_case, target_table.
  by_key k; try discriminate. reflexivity.
Qed.

End Cascade.

(** ** Which branch the trigger function takes *)

Lemma handler_cases (d : defaults) (op : tg_op) (OLD NEW : option cf_row)
  (s : db) :
  handle_feature_toggle_cascade d op OLD NEW s = (s, COALESCE NEW OLD)
  \/ (exists c k,
        v_company_id OLD NEW = Some c /\ v_feature_key OLD NEW s = Some k
        /\ being_deactivated op OLD NEW = true
        /\ handle_feature_toggle_cascade d op OLD NEW s
           = (deactivated_case d c k s, COALESCE NEW OLD))
  \/ (exists c k,
        v_company_id OLD NEW = Some c /\ v_feature_key OLD NEW s = Some k
        /\ being_deactivated op OLD NEW = false
        /\ being_reactivated op OLD NEW = true
        /\ handle_feature_toggle_cascade d op OLD NEW s
           = (reactivated_case c k s, COALESCE NEW OLD)).
Proof.
  unfold handle_feature_toggle_cascade, v_company_id, v_feature_key.
  destruct (select_key_into _ _) as [k |]; [| left; reflexivity].
  destruct (COALESCE (field NEW cf_company_id) _) as [c |];
    [| left; reflexivity].
  destruct (being_deactivated op OLD NEW) eqn:Hd.
  - right. left. exists c, k. auto.
  - destruct (being_reactivated op OLD NEW) eqn:Hr.
    + right. right. exists c, k. auto.
    + left. reflexivity.
Qed.

Lemma trigger_switch_off (d : defaults) (c f : uuid) (k : string) (s : db) :
  select_key_into (Some f) (system_features s) = Some k ->
  trigger_feature_toggle_cascade d (flag_row c f true) (flag_row c f false) s
  = deactivated_case d c k s.
Proof.
  intros H. unfold trigger_feature_toggle_cascade,
    handle_feature_toggle_cascade. simpl. rewrite H. reflexivity.
Qed.

Lemma trigger_switch_on (d : defaults) (c f : uuid) (k : string) (s : db) :
  select_key_into (Some f) (system_features s) = Some k ->
  trigger_feature_toggle_cascade d (flag_row c f false) (flag_row c f true) s
  = reactivated_case c k s.
Proof.
  intros H. unfold trigger_feature_toggle_cascade,
    handle_feature_toggle_cascade. simpl. rewrite H. reflexivity.
Qed.

(** ** Retrying a half of the cascade *)

Lemma deactivated_twice (d d' : defaults) (c : uuid) (k : string) (s : db) :
  deactivated_case d' c k (deactivated_case d c k s) = deactivated_case d c k s.
Proof.
  unfold deactivated_case. by_key k; simpl; try reflexivity.
  - unfold switch_off_coupons, save_coupons, with_coupons,
      with_feature_deactivated_items; simpl.
    rewrite SELECT_after_UPDATE, UPDATE_twice
      by apply active_of_switched_off.
    reflexivity.
  - unfold switch_off_promotions, save_promotions, with_promotions,
      with_feature_deactivated_items; simpl.
    rewrite SELECT_after_UPDATE, UPDATE_twice
      by apply active_of_switched_off.
    reflexivity.
  - unfold switch_off_delivery_drivers, save_delivery_drivers,
      with_delivery_drivers, with_feature_deactivated_items; simpl.
    rewrite SELECT_after_UPDATE, UPDATE_twice
      by apply drv_active_of_switched_off.
    reflexivity.
  - unfold switch_off_tables, save_tables, with_tables,
      with_feature_deactivated_items; simpl.
    rewrite SELECT_after_UPDATE, UPDATE_twice
      by apply active_of_switched_off.
    reflexivity.
Qed.

Lemma restore_nothing_saved (R : Type) (set : R -> R) (rid : R -> uuid)
  (c : uuid) (k tbl : string) (saved : list fdi_row) (t : list R) :
  UPDATE set
    (fun r => uuid_in (rid r)
                (saved_ids c k tbl (DELETE (saved_for c k tbl) saved))) t
  = t.
Proof.
  apply UPDATE_nothing. intros r _.
  unfold saved_ids. rewrite SELECT_after_DELETE. reflexivity.
Qed.

Lemma reactivated_twice (c : uuid) (k : string) (s : db) :
  reactivated_case c k (reactivated_case c k s) = reactivated_case c k s.
Proof.
  unfold reactivated_case. by_key k; simpl; try reflexivity.
  - unfold clean_up, restore_coupons, with_coupons,
      with_feature_deactivated_items; simpl.
    rewrite restore_nothing_saved, DELETE_twice. reflexivity.
  - unfold clean_up, restore_promotions, with_promotions,
      with_feature_deactivated_items; simpl.
    rewrite restore_nothing_saved, DELETE_twice. reflexivity.
  - unfold clean_up, restore_delivery_drivers, with_delivery_drivers,
      with_feature_deactivated_items; simpl.
    rewrite restore_nothing_saved, DELETE_twice. reflexivity.
  - unfold clean_up, restore_tables, with_tables,
      with_feature_deactivated_items; simpl.
    rewrite restore_nothing_saved, DELETE_twice. reflexivity.
Qed.

(** C5. Each half of the cascade is idempotent.  Run twice in succession on
    the same transition, whatever the defaults drawn by each run, the trigger
    function leaves the database the first run left; in particular the
    deactivating [CASE] run twice equals it run once, and so does the
    reactivating [CASE]. *)
Theorem cascade_idempotent :
  forall (d d' : defaults) (op : tg_op) (OLD NEW : option cf_row) (s : db),
    fst (handle_feature_toggle_cascade d' op OLD NEW
           (fst (handle_feature_toggle_cascade d op OLD NEW s)))
    = fst (handle_feature_toggle_cascade d op OLD NEW s)
    /\ (forall c k,
          deactivated_case d' c k (deactivated_case d c k s)
          = deactivated_case d c k s)
    /\ (forall c k,
          reactivated_case c k (reactivated_case c k s)
          = reactivated_case c k s).
Proof.
  intros d d' op OLD NEW s. split; [| split].
  - unfold handle_feature_toggle_cascade.
    destruct (select_key_into _ (system_features s)) as [k |] eqn:Hk;
      simpl; [| rewrite Hk; reflexivity].
    destruct (COALESCE (field NEW cf_company_id) (field OLD cf_company_id))
      as [c |] eqn:Hc; simpl; [| rewrite Hk; reflexivity].
    destruct (being_deactivated op OLD NEW) eqn:Hd; simpl.
    + rewrite system_features_deactivated, Hk. apply deactivated_twice.
    + destruct (being_reactivated op OLD NEW) eqn:Hr; simpl.
      * rewrite system_features_reactivated, Hk. apply reactivated_twice.
      * rewrite Hk. reflexivity.
  - intros c k. apply deactivated_twice.
  - intros c k. apply reactivated_twice.
Qed.

(** ** Writes that do not change the flag, and features without a branch *)

Lemma same_flag_not_distinct (a : option bool) : is_distinct_from a a = false.
Proof. destruct a as [[|] |]; reflexivity. Qed.

Lemma same_flag_no_branch (op : tg_op) (OLD NEW : cf_row) :
  cf_is_active OLD = cf_is_active NEW ->
  being_deactivated op (Some OLD) (Some NEW) = false
  /\ being_reactivated op (Some OLD) (Some NEW) = false.
Proof.
  unfold being_deactivated, being_reactivated. simpl. intros ->.
  destruct (tg_op_eqb op UPDATE_op), (cf_is_active NEW) as [[|] |];
    split; reflexivity.
Qed.

(** C7. A write to a row of [company_features] that leaves [is_active] as it
    was (true to true, false to false, NULL to NULL) rewrites that row and
    nothing else: the trigger does not fire, so the database after the
    statement is the database with the row replaced; and the trigger function
    itself, were it called on such a pair of rows, would take neither
    branch. *)
Theorem unchanged_flag_no_cascade :
  forall (d : defaults) (n : nat) (OLD NEW : cf_row) (s : db),
    nth_error (company_features s) n = Some OLD ->
    cf_is_active OLD = cf_is_active NEW ->
    update_company_features d n NEW s
    = with_company_features (replace_row n NEW (company_features s)) s
    /\ (forall s0, trigger_feature_toggle_cascade d OLD NEW s0 = s0)
    /\ (forall op s0,
          handle_feature_toggle_cascade d op (Some OLD) (Some NEW) s0
          = (s0, Some NEW)).
Proof.
  intros d n OLD NEW s Hn Hf.
  assert (forall s0, trigger_feature_toggle_cascade d OLD NEW s0 = s0) as Ht.
  { intros s0. unfold trigger_feature_toggle_cascade.
    rewrite Hf, same_flag_not_distinct. reflexivity. }
  split; [| split].
  - unfold update_company_features. rewrite Hn. apply Ht.
  - exact Ht.
  - intros op s0. unfold handle_feature_toggle_cascade.
    destruct (same_flag_no_branch op OLD NEW Hf) as [Hd Hr].
    rewrite Hd, Hr.
    destruct (select_key_into _ _); [| reflexivity].
    destruct (COALESCE _ _); reflexivity.
Qed.

Lemma unchanged_flag_no_cascade_witness :
  nth_error (company_features Example.s0) 0 = Some Example.coupons_on
  /\ cf_is_active Example.coupons_on = cf_is_active Example.coupons_on
  /\ update_company_features Example.d0 0 Example.coupons_on Example.s0
     = with_company_features
         (replace_row 0 Example.coupons_on (company_features Example.s0))
         Example.s0.
Proof.
  split; [reflexivity | split; [reflexivity |]].
  apply (@unchanged_flag_no_cascade Example.d0 0 Example.coupons_on
           Example.coupons_on Example.s0); reflexivity.
Defined.

(** C8. A feature key that none of the [WHEN] labels names cascades to
    nothing.  Whatever the transition, the trigger function returns normally
    with the row it was given and leaves the whole database as it found it:
    no saved item is inserted or deleted and no target table is touched. *)
Theorem unknown_feature_no_cascade :
  forall (d : defaults) (op : tg_op) (OLD NEW : option cf_row) (s : db)
         (k : string),
    v_feature_key OLD NEW s = Some k ->
    target_table k = None ->
    handle_feature_toggle_cascade d op OLD NEW s = (s, COALESCE NEW OLD)
    /\ (forall c, deactivated_case d c k s = s)
    /\ (forall c, reactivated_case c k s = s).
Proof.
  intros d op OLD NEW s k Hk Hu. split; [| split].
  - unfold handle_feature_toggle_cascade. unfold v_feature_key in Hk.
    rewrite Hk. destruct (COALESCE (field NEW cf_company_id) _) as [c |];
      [| reflexivity].
    rewrite deactivated_unknown, reactivated_unknown by assumption.
    destruct (being_deactivated op OLD NEW); [reflexivity |].
    destruct (being_reactivated op OLD NEW); reflexivity.
  - intros c. apply deactivated_unknown, Hu.
  - intros c. apply reactivated_unknown, Hu.
Qed.

Lemma unknown_feature_no_cascade_witness :
  v_feature_key (Some Example.loyalty_on) (Some Example.loyalty_off)
    Example.s0 = Some "loyalty"
  /\ target_table "loyalty" = None
  /\ handle_feature_toggle_cascade Example.d0 UPDATE_op
       (Some Example.loyalty_on) (Some Example.loyalty_off) Example.s0
     = (Example.s0, Some Example.loyalty_off).
Proof.
  split; [reflexivity | split; [reflexivity |]].
  apply (@unknown_feature_no_cascade Example.d0 UPDATE_op
           (Some Example.loyalty_on) (Some Example.loyalty_off) Example.s0
           "loyalty"); reflexivity.
Defined.

(** ** The target tables keep their rows *)

Section RowByRow.

Variable R : Type.
Variable P : R -> R -> Prop.
Hypothesis P_same : forall r, P r r.

Lemma Forall2_same (t : list R) : Forall2 P t t.
Proof. induction t; constructor; auto. Qed.

Lemma Forall2_UPDATE (set : R -> R) (cond : R -> bool) (t : list R) :
  (forall r, P r (set r)) -> Forall2 P t (UPDATE set cond t).
Proof.
  intros H. unfold UPDATE. induction t as [| r t IH]; simpl; constructor.
  - destruct (cond r); auto.
  - exact IH.
Qed.

End RowByRow.

Lemma only_is_active_differs_same (r : target_row) :
  only_is_active_differs r r.
Proof. repeat split. Qed.

Lemma only_driver_flags_differ_same (r : driver_row) :
  only_driver_flags_differ r r.
Proof. repeat split. Qed.

Lemma target_rows_kept_same (s : db) : target_rows_kept s s.
Proof.
  repeat split;
    (apply Forall2_same;
     first [apply only_is_active_differs_same
           | apply only_driver_flags_differ_same]).
Qed.

Ltac rows_kept :=
  first
    [ apply Forall2_UPDATE;
      [ first [apply only_is_active_differs_same
              | apply only_driver_flags_differ_same]
      | intros r; repeat split ]
    | apply Forall2_same;
      first [apply only_is_active_differs_same
            | apply only_driver_flags_differ_same] ].

Lemma target_rows_kept_deactivated (d : defaults) (c : uuid) (k : string)
  (s : db) :
  target_rows_kept s (deactivated_case d c k s).
Proof.
  unfold target_rows_kept.
  rewrite coupons_deactivated, promotions_deactivated,
    delivery_drivers_deactivated, tables_deactivated.
  repeat split.
  - destruct (String.eqb k "coupons"); rows_kept.
  - destruct (String.eqb k "promotions"); rows_kept.
  - destruct (String.eqb k "drivers"); rows_kept.
  - destruct (String.eqb k "tables"); rows_kept.
Qed.

Lemma target_rows_kept_reactivated (c : uuid) (k : string) (s : db) :
  target_rows_kept s (reactivated_case c k s).
Proof.
  unfold target_rows_kept.
  rewrite coupons_reactivated, promotions_reactivated,
    delivery_drivers_reactivated, tables_reactivated.
  repeat split.
  - destruct (String.eqb k "coupons"); rows_kept.
  - destruct (String.eqb k "promotions"); rows_kept.
  - destruct (String.eqb k "drivers"); rows_kept.
  - destruct (String.eqb k "tables"); rows_kept.
Qed.

(** C9. The trigger function never adds a row to a target table nor removes
    one, and in the rows it rewrites it changes [is_active] (and, for
    [delivery_drivers], [is_available]) only: on every call, row for row,
    each of the four tables keeps the id, the company and every other column
    of every row. *)
Theorem cascade_keeps_target_rows :
  forall (d : defaults) (op : tg_op) (OLD NEW : option cf_row) (s : db),
    target_rows_kept s (fst (handle_feature_toggle_cascade d op OLD NEW s)).
Proof.
  intros d op OLD NEW s.
  destruct (handler_cases d op OLD NEW s)
    as [H | [[c [k [_ [_ [_ H]]]]] | [c [k [_ [_ [_ [_ H]]]]]]]];
    rewrite H; simpl.
  - apply target_rows_kept_same.
  - apply target_rows_kept_deactivated.
  - apply target_rows_kept_reactivated.
Qed.

(** ** One saved item per conflict target *)








(** ** Saved items and the company of the rows they name *)

Section Owner.

Variable R : Type.
Variables rid rco : R -> uuid.
Variable tbl : string.




Lemma NoDup_same_key (t : list R) (r r' : R) :
  NoDup (map rid t) -> In r t -> In r' t -> rid r = rid r' -> r = r'.
Proof.
  induction t as [| a t IH]; simpl; intros Hn Hr Hr' E; [contradiction |].
  inversion Hn as [| x l Ha Ht]; subst.
  destruct Hr as [-> | Hr], Hr' as [-> | Hr'].
  - reflexivity.
  - exfalso. apply Ha. rewrite E. apply in_map, Hr'.
  - exfalso. apply Ha. rewrite <- E. apply in_map, Hr.
  - apply IH; assumption.
Qed.



Lemma Forall2_map_In (P : R -> R -> Prop) (f : R -> R) (t : list R) :
  (forall r, In r t -> P r (f r)) -> Forall2 P t (map f t).
Proof.
  induction t as [| r t IH]; simpl; intros H; constructor.
  - apply H. left. reflexivity.
  - apply IH. intros r' Hr'. apply H. right. exact Hr'.
Qed.



End Owner.


















(** ** Saving comes before switching off, cleaning up after restoring *)

Section SaveThenSwitchOff.

Variable R : Type.
Variable rid : R -> uuid.
Variable cond : R -> bool.
Variables (d : defaults) (c : uuid) (k tbl : string).
Variable saved : list fdi_row.

Lemma selected_is_saved (t : list R) (r : R) :
  In r t -> cond r = true ->
  In (rid r)
     (saved_ids c k tbl (INSERT_SELECT d 0 c k tbl (SELECT rid cond t) saved)).
Proof.
  intros Hr Hc. apply In_saved_ids. apply INSERT_SELECT_covers.
  apply In_SELECT. exists r. auto.
Qed.

Lemma switch_off_saved (set : R -> R) (t : list R) :
  Forall2
    (fun r r' => r' <> r ->
       In (rid r)
          (saved_ids c k tbl
             (INSERT_SELECT d 0 c k tbl (SELECT rid cond t) saved)))
    t (UPDATE set cond t).
Proof.
  unfold UPDATE. apply Forall2_map_In. intros r Hr Hne.
  destruct (cond r) eqn:C; [| congruence].
  apply selected_is_saved; assumption.
Qed.

Lemma round_trip_rows (set_off set_on : R -> R) (t : list R) :
  (forall r, rid (set_off r) = rid r) ->
  Forall2 (fun r r' => cond r = true -> r' = set_on (set_off r)) t
    (UPDATE set_on
       (fun r => uuid_in (rid r)
          (saved_ids c k tbl
             (INSERT_SELECT d 0 c k tbl (SELECT rid cond t) saved)))
       (UPDATE set_off cond t)).
Proof.
  intros Hid. unfold UPDATE. rewrite map_map.
  apply Forall2_map_In. intros r Hr Hc. rewrite Hc, Hid.
  replace (uuid_in _ _) with true; [reflexivity |].
  symmetry. apply uuid_in_iff, selected_is_saved; assumption.
Qed.

End SaveThenSwitchOff.

Lemma deactivated_in_two_statements (d : defaults) (c : uuid) (k : string)
  (s : db) :
  deactivated_case d c k s = switch_off_case c k (save_case d c k s).
Proof.
  unfold deactivated_case, switch_off_case, save_case.
  by_key k; reflexivity.
Qed.

Lemma unchanged_rows_are_saved (R : Type) (P : R -> Prop) (t : list R) :
  Forall2 (fun r r' => r' <> r -> P r) t t.
Proof.
  apply Forall2_same. intros r H. exfalso. apply H. reflexivity.
Qed.

Lemma switch_off_case_saved (d : defaults) (c : uuid) (k : string) (s : db) :
  changed_rows_are_saved c k (save_case d c k s)
    (switch_off_case c k (save_case d c k s)).
Proof.
  unfold changed_rows_are_saved, switch_off_case, save_case.
  by_key k; simpl; repeat split;
    first [apply unchanged_rows_are_saved | apply switch_off_saved].
Qed.

Lemma reactivated_nothing_saved (c : uuid) (k tbl : string) (s : db) :
  target_table k = Some tbl ->
  saved_ids c k tbl (feature_deactivated_items (reactivated_case c k s)) = [].
Proof.
  intros H. rewrite saved_reactivated, H.
  unfold saved_ids. apply SELECT_after_DELETE.
Qed.

(** C6. The deactivating branch is its [INSERT] followed by its [UPDATE].
    The [INSERT] leaves the target tables alone; the [UPDATE] leaves the saved
    items alone and, row for row, every row it changes has a saved item for
    [(c, k)] and its table in the database it runs on, whether the [INSERT]
    put it there or found it there.  And the reactivating branch leaves no
    saved item for [(c, k)] and the table of [k]. *)
Theorem saved_before_switched_off :
  forall (d : defaults) (c : uuid) (k : string) (s : db),
    deactivated_case d c k s = switch_off_case c k (save_case d c k s)
    /\ coupons (save_case d c k s) = coupons s
    /\ promotions (save_case d c k s) = promotions s
    /\ delivery_drivers (save_case d c k s) = delivery_drivers s
    /\ tables (save_case d c k s) = tables s
    /\ feature_deactivated_items (switch_off_case c k (save_case d c k s))
       = feature_deactivated_items (save_case d c k s)
    /\ changed_rows_are_saved c k (save_case d c k s)
         (switch_off_case c k (save_case d c k s))
    /\ (forall tbl,
          target_table k = Some tbl ->
          saved_ids c k tbl
            (feature_deactivated_items (reactivated_case c k s)) = []).
Proof.
  intros d c k s.
  split; [apply deactivated_in_two_statements |].
  assert (coupons (save_case d c k s) = coupons s
          /\ promotions (save_case d c k s) = promotions s
          /\ delivery_drivers (save_case d c k s) = delivery_drivers s
          /\ tables (save_case d c k s) = tables s) as [E1 [E2 [E3 E4]]].
  { unfold save_case. by_key k; repeat split. }
  repeat (split; [assumption |]).
  split; [| split].
  - unfold switch_off_case, save_case. by_key k; reflexivity.
  - apply switch_off_case_saved.
  - intros tbl. apply reactivated_nothing_saved.
Qed.

Lemma saved_before_switched_off_witness :
  target_table "coupons" = Some "coupons"
  /\ saved_ids Example.T1 "coupons" "coupons"
       (feature_deactivated_items
          (reactivated_case Example.T1 "coupons" Example.s1)) = [].
Proof.
  split; [reflexivity |].
  apply (saved_before_switched_off Example.d0 Example.T1 "coupons" Example.s1).
  reflexivity.
Defined.

(** ** Restoring touches the saved rows only *)

Lemma branches_exclusive (op : tg_op) (OLD NEW : option cf_row) :
  being_reactivated op OLD NEW = true -> being_deactivated op OLD NEW = false.
Proof.
  unfold being_reactivated, being_deactivated.
  destruct (tg_op_eqb op UPDATE_op), (field OLD cf_is_active) as [[|] |],
    (field NEW cf_is_active) as [[|] |]; simpl; congruence.
Qed.

Lemma handler_reactivating (d : defaults) (op : tg_op) (OLD NEW : option cf_row)
  (s : db) (c : uuid) (k : string) :
  v_company_id OLD NEW = Some c ->
  v_feature_key OLD NEW s = Some k ->
  being_reactivated op OLD NEW = true ->
  fst (handle_feature_toggle_cascade d op OLD NEW s) = reactivated_case c k s.
Proof.
  unfold v_company_id, v_feature_key, handle_feature_toggle_cascade.
  intros Hc Hk Hr. rewrite Hk, Hc, (branches_exclusive _ _ _ Hr), Hr.
  reflexivity.
Qed.

Lemma handler_deactivating (d : defaults) (op : tg_op) (OLD NEW : option cf_row)
  (s : db) (c : uuid) (k : string) :
  v_company_id OLD NEW = Some c ->
  v_feature_key OLD NEW s = Some k ->
  being_deactivated op OLD NEW = true ->
  fst (handle_feature_toggle_cascade d op OLD NEW s)
  = deactivated_case d c k s.
Proof.
  unfold v_company_id, v_feature_key, handle_feature_toggle_cascade.
  intros Hc Hk Hd. rewrite Hk, Hc, Hd. reflexivity.
Qed.

Lemma restore_outside_saved (R : Type) (rid : R -> uuid) (set : R -> R)
  (S : list uuid) (t : list R) :
  Forall2 (fun r r' => ~ In (rid r) S -> r' = r) t
    (UPDATE set (fun r => uuid_in (rid r) S) t).
Proof.
  unfold UPDATE. apply Forall2_map_In. intros r _ Hout.
  destruct (uuid_in (rid r) S) eqn:Hin; [| reflexivity].
  exfalso. apply Hout, uuid_in_iff, Hin.
Qed.

Lemma outside_snapshot_untouched_reactivated (c : uuid) (k : string) (s : db) :
  outside_snapshot_untouched c k s (reactivated_case c k s).
Proof.
  unfold outside_snapshot_untouched.
  rewrite coupons_reactivated, promotions_reactivated,
    delivery_drivers_reactivated, tables_reactivated.
  repeat split;
    match goal with
    | |- context [if ?b then _ else _] => destruct b
    end;
    first [apply restore_outside_saved | apply Forall2_same; reflexivity].
Qed.

Lemma never_switched_off_reactivated (c : uuid) (k : string) (s : db) :
  never_switched_off s (reactivated_case c k s).
Proof.
  unfold never_switched_off.
  rewrite coupons_reactivated, promotions_reactivated,
    delivery_drivers_reactivated, tables_reactivated.
  repeat split;
    match goal with
    | |- context [if ?b then _ else _] => destruct b
    end;
    first [ apply Forall2_same; intros r H; exact H
          | apply Forall2_map_In; intros r _ H;
            destruct (uuid_in _ _); [reflexivity | exact H] ].
Qed.

(** C4. When the trigger function takes the reactivating branch for company
    [c] and feature key [k], it rewrites, in each target table, only rows
    whose id is among the items saved for [(c, k)] and that table: row for
    row, every other row, one that somebody activated while the feature was
    off included, is afterwards what it was before.  And no row at all that
    was active before is inactive afterwards. *)
Theorem restoration_leaves_others :
  forall (d : defaults) (op : tg_op) (OLD NEW : option cf_row) (s : db)
         (c : uuid) (k : string),
    v_company_id OLD NEW = Some c ->
    v_feature_key OLD NEW s = Some k ->
    being_reactivated op OLD NEW = true ->
    outside_snapshot_untouched c k s
      (fst (handle_feature_toggle_cascade d op OLD NEW s))
    /\ never_switched_off s
         (fst (handle_feature_toggle_cascade d op OLD NEW s)).
Proof.
  intros d op OLD NEW s c k Hc Hk Hr.
  rewrite (handler_reactivating d _ _ _ s Hc Hk Hr).
  split.
  - apply outside_snapshot_untouched_reactivated.
  - apply never_switched_off_reactivated.
Qed.

Lemma restoration_leaves_others_witness :
  v_company_id (Some Example.coupons_off) (Some Example.coupons_on)
  = Some Example.T1
  /\ v_feature_key (Some Example.coupons_off) (Some Example.coupons_on)
       Example.s1' = Some "coupons"
  /\ being_reactivated UPDATE_op (Some Example.coupons_off)
       (Some Example.coupons_on) = true
  /\ outside_snapshot_untouched Example.T1 "coupons" Example.s1'
       (fst (handle_feature_toggle_cascade Example.d0 UPDATE_op
               (Some Example.coupons_off) (Some Example.coupons_on)
               Example.s1')).
Proof.
  repeat (split; [reflexivity |]).
  apply (@restoration_leaves_others Example.d0 UPDATE_op
           (Some Example.coupons_off) (Some Example.coupons_on)
           Example.s1' Example.T1 "coupons"); reflexivity.
Defined.

(** ** Off, then on again *)

Lemma Forall2_map_view (R V : Type) (P : V -> V -> Prop) (f : R -> V)
  (t t' : list R) :
  Forall2 (fun r r' => P (f r) (f r')) t t' -> Forall2 P (map f t) (map f t').
Proof.
  induction 1; simpl; constructor; assumption.
Qed.

Lemma on_after_off (r : target_row) :
  is_active r = Some true ->
  set_is_active true (set_is_active false r) = r.
Proof.
  destruct r as [i c a o]. simpl. intros ->. reflexivity.
Qed.

Lemma drv_on_after_off (r : driver_row) :
  drv_is_active r = Some true ->
  set_drv_is_active true (set_is_available false (set_drv_is_active false r))
  = set_is_available false r.
Proof.
  destruct r as [i c a v p o]. simpl. intros ->. reflexivity.
Qed.

Lemma round_trip_target_rows (d : defaults) (c : uuid) (k tbl : string)
  (saved : list fdi_row) (t : list target_row) :
  Forall2 (fun r r' => active_of c r = true -> r' = r) t
    (UPDATE (set_is_active true)
       (fun r => uuid_in (id r)
          (saved_ids c k tbl
             (INSERT_SELECT d 0 c k tbl (SELECT id (active_of c) t) saved)))
       (UPDATE (set_is_active false) (active_of c) t)).
Proof.
  eapply Forall2_impl; [| apply round_trip_rows; reflexivity].
  intros r r' H Hc. rewrite (H Hc).
  apply on_after_off. apply active_of_iff in Hc. apply Hc.
Qed.

Lemma round_trip_driver_rows (d : defaults) (c : uuid) (k tbl : string)
  (saved : list fdi_row) (t : list driver_row) :
  Forall2
    (fun r r' => drv_active_of c r = true -> r' = set_is_available false r) t
    (UPDATE (set_drv_is_active true)
       (fun r => uuid_in (drv_id r)
          (saved_ids c k tbl
             (INSERT_SELECT d 0 c k tbl
                (SELECT drv_id (drv_active_of c) t) saved)))
       (UPDATE (fun r => set_is_available false (set_drv_is_active false r))
          (drv_active_of c) t)).
Proof.
  eapply Forall2_impl; [| apply round_trip_rows; reflexivity].
  intros r r' H Hc. rewrite (H Hc).
  apply drv_on_after_off. apply drv_active_of_iff in Hc. apply Hc.
Qed.

Lemma round_trip_view (d : defaults) (c : uuid) (k tbl : string) (s : db) :
  target_table k = Some tbl ->
  Forall2 (fun v v' => active_view c v -> v' = v)
    (activation_of tbl s)
    (activation_of tbl (reactivated_case c k (deactivated_case d c k s))).
Proof.
  unfold target_table, activation_of. intros Ht.
  by_key k; inversion Ht; subst tbl; simpl;
    apply Forall2_map_view;
    (eapply Forall2_impl;
     [| first [apply round_trip_target_rows | apply round_trip_driver_rows]]);
    unfold active_view; simpl; intros r r' H [Hc Ha].
  - rewrite H; [reflexivity | apply active_of_iff; auto].
  - rewrite H; [reflexivity | apply active_of_iff; auto].
  - rewrite H; [| apply drv_active_of_iff; auto]. simpl. congruence.
  - rewrite H; [reflexivity | apply active_of_iff; auto].
Qed.

(** C2. Let [k] be a feature key with a branch and [tbl] its table.  Switch
    the feature off for company [c], then on again, nothing happening in
    between: row for row, every row of [tbl] that was active and of [c]
    before has the same id, company and [is_active = true] afterwards; and no
    saved item is left for [(c, k, tbl)]. *)
Theorem off_then_on_restores :
  forall (d d' : defaults) (c f : uuid) (k tbl : string) (s : db),
    select_key_into (Some f) (system_features s) = Some k ->
    target_table k = Some tbl ->
    Forall2 (fun v v' => active_view c v -> v' = v)
      (activation_of tbl s)
      (activation_of tbl (switch_on d' c f (switch_off d c f s)))
    /\ saved_ids c k tbl
         (feature_deactivated_items (switch_on d' c f (switch_off d c f s)))
       = [].
Proof.
  intros d d' c f k tbl s Hk Ht. unfold switch_on, switch_off.
  rewrite (trigger_switch_off d c f s Hk).
  rewrite (@trigger_switch_on d' c f k);
    [| rewrite system_features_deactivated; exact Hk].
  split.
  - apply round_trip_view, Ht.
  - apply reactivated_nothing_saved, Ht.
Qed.

Lemma off_then_on_restores_witness :
  select_key_into (Some Example.f_coupons) (system_features Example.s0)
  = Some "coupons"
  /\ target_table "coupons" = Some "coupons"
  /\ Forall2 (fun v v' => active_view Example.T1 v -> v' = v)
       (activation_of "coupons" Example.s0)
       (activation_of "coupons"
          (switch_on Example.d0 Example.T1 Example.f_coupons
             (switch_off Example.d0 Example.T1 Example.f_coupons Example.s0)))
  /\ saved_ids Example.T1 "coupons" "coupons"
       (feature_deactivated_items
          (switch_on Example.d0 Example.T1 Example.f_coupons
             (switch_off Example.d0 Example.T1 Example.f_coupons Example.s0)))
     = [].
Proof.
  repeat (split; [reflexivity |]).
  apply (@off_then_on_restores Example.d0 Example.d0 Example.T1
           Example.f_coupons "coupons" "coupons" Example.s0); reflexivity.
Defined.

(** ** What a restoration sets *)

Lemma restored_rows_round_trip (d : defaults) (c : uuid) (k : string) (s : db) :
  restored_rows c k s (reactivated_case c k (deactivated_case d c k s)).
Proof.
  unfold restored_rows. repeat split; intros ->; simpl;
    first [apply round_trip_target_rows | apply round_trip_driver_rows].
Qed.

Lemma is_available_reactivated (c : uuid) (k : string) (s : db) :
  Forall2 (fun r r' => is_available r' = is_available r)
    (delivery_drivers s) (delivery_drivers (reactivated_case c k s)).
Proof.
  rewrite delivery_drivers_reactivated.
  destruct (String.eqb k "drivers").
  - apply Forall2_UPDATE; reflexivity.
  - apply Forall2_same; reflexivity.
Qed.

(** C1, as the code has it.  Switch a feature with a branch off for company
    [c], then on again.  For every row the deactivation switched off, the
    restoration sets [is_active] back to true and writes no other column: a
    row of [coupons], [promotions] or [tables] is again what it was; a row of
    [delivery_drivers] is what it was but for [is_available], which the
    deactivation set to false and which stays false.  From any database, a
    restoration leaves [is_available] of every driver as it finds it. *)
Theorem restoration_sets_is_active :
  forall (d d' : defaults) (c f : uuid) (k : string) (s : db),
    select_key_into (Some f) (system_features s) = Some k ->
    restored_rows c k s (switch_on d' c f (switch_off d c f s))
    /\ Forall2 (fun r r' => is_available r' = is_available r)
         (delivery_drivers s) (delivery_drivers (switch_on d' c f s)).
Proof.
  intros d d' c f k s Hk. unfold switch_on, switch_off.
  rewrite (trigger_switch_off d c f s Hk).
  rewrite (@trigger_switch_on d' c f k (deactivated_case d c k s));
    [| rewrite system_features_deactivated; exact Hk].
  rewrite (trigger_switch_on d' c f s Hk).
  split.
  - apply restored_rows_round_trip.
  - apply is_available_reactivated.
Qed.

Lemma restoration_sets_is_active_witness :
  select_key_into (Some Example.f_drivers) (system_features Example.s0)
  = Some "drivers"
  /\ restored_rows Example.T1 "drivers" Example.s0
       (switch_on Example.d0 Example.T1 Example.f_drivers
          (switch_off Example.d0 Example.T1 Example.f_drivers Example.s0)).
Proof.
  split; [reflexivity |].
  apply (@restoration_sets_is_active Example.d0 Example.d0 Example.T1
           Example.f_drivers "drivers" Example.s0); reflexivity.
Defined.

(** C1, as the claim has it, fails on [delivery_drivers]: the first driver of
    the example is active and available, the deactivation sets both columns
    to false and saves her id, and after the restoration she is active but
    still not available. *)
Lemma drivers_is_available_not_restored :
  nth_error (delivery_drivers Example.s0) 0
  = Some (Example.driver 301%N Example.T1 true true)
  /\ nth_error (delivery_drivers Example.t1) 0
     = Some (Example.driver 301%N Example.T1 false false)
  /\ In 301%N
       (saved_ids Example.T1 "drivers" "delivery_drivers"
          (feature_deactivated_items Example.t1))
  /\ nth_error (delivery_drivers Example.t2) 0
     = Some (Example.driver 301%N Example.T1 true false)
  /\ ~ (exists r, nth_error (delivery_drivers Example.t2) 0 = Some r
                  /\ is_available r = Some true).
Proof.
  repeat split.
  - left. reflexivity.
  - intros [r [H1 H2]]. vm_compute in H1. inversion H1. subst r.
    discriminate H2.
Qed.

(** The scenario of the specification: three active coupons, the feature
    switched off, a fourth coupon activated meanwhile, the feature switched
    on again. *)
Example concrete_scenario :
  activation_of "coupons" Example.s1
  = [ (101, 1, Some false); (102, 1, Some false); (103, 1, Some false);
      (104, 1, Some false); (201, 2, Some true) ]%N
  /\ saved_ids Example.T1 "coupons" "coupons"
       (feature_deactivated_items Example.s1) = [ 101; 102; 103 ]%N
  /\ activation_of "coupons" Example.s2'
     = [ (101, 1, Some true); (102, 1, Some true); (103, 1, Some true);
         (104, 1, Some true); (201, 2, Some true) ]%N
  /\ feature_deactivated_items Example.s2' = [].
Proof. repeat split. Qed.

(** * Further properties of the trigger function *)

(** ** Calls that cascade nothing *)

(** X1. The trigger function is written for [UPDATE]: bound to an [INSERT] or a
    [DELETE] it would return the row it is given and change nothing. *)
Theorem only_update_cascades :
  forall (d : defaults) (op : tg_op) (OLD NEW : option cf_row) (s : db),
    op <> UPDATE_op ->
    handle_feature_toggle_cascade d op OLD NEW s = (s, COALESCE NEW OLD).
Proof.
  intros d op OLD NEW s Hop. unfold handle_feature_toggle_cascade.
  assert (being_deactivated op OLD NEW = false
          /\ being_reactivated op OLD NEW = false) as [Hd Hr].
  { unfold being_deactivated, being_reactivated.
    destruct op; try (exfalso; apply Hop; reflexivity); simpl;
      destruct (field OLD cf_is_active) as [[|] |],
        (field NEW cf_is_active) as [[|] |]; split; reflexivity. }
  rewrite Hd, Hr.
  destruct (select_key_into _ _); [| reflexivity].
  destruct (COALESCE (field NEW cf_company_id) _); reflexivity.
Qed.

Lemma only_update_cascades_witness :
  INSERT_op <> UPDATE_op
  /\ handle_feature_toggle_cascade Example.d0 INSERT_op None
       (Some Example.coupons_off) Example.s0
     = (Example.s0, Some Example.coupons_off).
Proof.
  split; [discriminate |].
  apply (@only_update_cascades Example.d0 INSERT_op None
           (Some Example.coupons_off) Example.s0).
  discriminate.
Defined.

(** X2. A flag that is NULL before or after the write is distinct from a
    boolean, so the trigger fires; but neither [IF] condition is true on a
    NULL, and nothing is cascaded: a feature whose flag goes from NULL to
    false keeps its coupons active. *)
Theorem null_flag_no_cascade :
  forall (d : defaults) (OLD NEW : cf_row) (s : db),
    cf_is_active OLD = None \/ cf_is_active NEW = None ->
    trigger_feature_toggle_cascade d OLD NEW s = s.
Proof.
  intros d OLD NEW s H. unfold trigger_feature_toggle_cascade.
  destruct (is_distinct_from _ _); [| reflexivity].
  unfold handle_feature_toggle_cascade.
  assert (being_deactivated UPDATE_op (Some OLD) (Some NEW) = false
          /\ being_reactivated UPDATE_op (Some OLD) (Some NEW) = false)
    as [Hd Hr].
  { unfold being_deactivated, being_reactivated. simpl.
    destruct H as [-> | ->]; simpl;
      [destruct (cf_is_active NEW) as [[|] |]
      | destruct (cf_is_active OLD) as [[|] |]]; split; reflexivity. }
  rewrite Hd, Hr.
  destruct (select_key_into _ _); [| reflexivity].
  destruct (COALESCE _ _); reflexivity.
Qed.

Lemma null_flag_no_cascade_witness :
  (cf_is_active
     {| cf_company_id := Some Example.T1;
        feature_id := Some Example.f_coupons;
        cf_is_active := None |} = None
   \/ cf_is_active Example.coupons_off = None)
  /\ is_distinct_from None (cf_is_active Example.coupons_off) = true
  /\ trigger_feature_toggle_cascade Example.d0
       {| cf_company_id := Some Example.T1;
          feature_id := Some Example.f_coupons;
          cf_is_active := None |}
       Example.coupons_off Example.s0
     = Example.s0.
Proof.
  split; [left; reflexivity | split; [reflexivity |]].
  apply (@null_flag_no_cascade Example.d0
           {| cf_company_id := Some Example.T1;
              feature_id := Some Example.f_coupons;
              cf_is_active := None |}
           Example.coupons_off Example.s0).
  left. reflexivity.
Defined.

Lemma filter_nothing (R : Type) (f : R -> bool) (t : list R) :
  (forall r, In r t -> f r = false) -> filter f t = [].
Proof.
  induction t as [| r t IH]; simpl; intros H; [reflexivity |].
  rewrite (H r (or_introl eq_refl)). apply IH.
  intros r' Hr'. apply H. right. exact Hr'.
Qed.

Lemma select_key_into_absent (x : option uuid) (t : list sf_row) :
  (forall r, In r t -> Some (sf_id r) <> x) -> select_key_into x t = None.
Proof.
  intros H. unfold select_key_into.
  rewrite filter_nothing; [reflexivity |].
  intros r Hr. destruct x as [y |]; simpl; [| reflexivity].
  destruct (N.eqb_spec (sf_id r) y) as [E | E]; [| reflexivity].
  exfalso. apply (H r Hr). congruence.
Qed.

(** X3. When the row names a feature that [system_features] does not hold (or
    names none), or names no company, the trigger function returns at once
    and changes nothing, whatever the transition. *)
Theorem unresolved_feature_no_cascade :
  forall (d : defaults) (op : tg_op) (OLD NEW : option cf_row) (s : db),
    (forall r, In r (system_features s) ->
       Some (sf_id r) <> COALESCE (field NEW feature_id) (field OLD feature_id))
    \/ COALESCE (field NEW cf_company_id) (field OLD cf_company_id) = None ->
    handle_feature_toggle_cascade d op OLD NEW s = (s, COALESCE NEW OLD).
Proof.
  intros d op OLD NEW s [H | H]; unfold handle_feature_toggle_cascade.
  - rewrite select_key_into_absent by exact H. reflexivity.
  - rewrite H. destruct (select_key_into _ _); reflexivity.
Qed.

Lemma unresolved_feature_no_cascade_witness :
  COALESCE
    (field (Some {| cf_company_id := None;
                    feature_id := Some Example.f_coupons;
                    cf_is_active := Some false |}) cf_company_id)
    (field (Some {| cf_company_id := None;
                    feature_id := Some Example.f_coupons;
                    cf_is_active := Some true |}) cf_company_id) = None
  /\ fst (handle_feature_toggle_cascade Example.d0 UPDATE_op
            (Some {| cf_company_id := None;
                     feature_id := Some Example.f_coupons;
                     cf_is_active := Some true |})
            (Some {| cf_company_id := None;
                     feature_id := Some Example.f_coupons;
                     cf_is_active := Some false |}) Example.s0)
     = Example.s0.
Proof.
  split; [reflexivity |].
  rewrite (@unresolved_feature_no_cascade Example.d0 UPDATE_op
             (Some {| cf_company_id := None;
                      feature_id := Some Example.f_coupons;
                      cf_is_active := Some true |})
             (Some {| cf_company_id := None;
                      feature_id := Some Example.f_coupons;
                      cf_is_active := Some false |}) Example.s0).
  - reflexivity.
  - right. reflexivity.
Defined.

(** ** What a deactivation leaves behind *)

Lemma INSERT_SELECT_appends (d : defaults) (c : uuid) (k tbl : string)
  (ids : list uuid) :
  forall n t,
    exists l,
      INSERT_SELECT d n c k tbl ids t = (t ++ l)%list
      /\ Forall (fun e =>
                   fdi_company_id e = c /\ feature_key e = k
                   /\ table_name e = tbl /\ In (item_id e) ids
                   /\ deactivated_at e = Some (now d)) l.
Proof.
  induction ids as [| i ids IH]; simpl; intros n t.
  - exists []. split; [symmetry; apply app_nil_r | constructor].
  - unfold insert_on_conflict_do_nothing.
    destruct (existsb _ t).
    + destruct (IH (S n) t) as [l [E F]]. exists l. split; [exact E |].
      eapply Forall_impl; [| exact F]. simpl. intros e H.
      repeat split; try apply H. right. apply H.
    + match goal with
      | |- context [(t ++ [?r])%list] =>
          destruct (IH (S n) (t ++ [r])%list) as [l [E F]];
                                 exists (r :: l)
      end.
      split; [rewrite E, <- app_assoc; reflexivity |].
      constructor.
      * simpl. repeat split. left. reflexivity.
      * eapply Forall_impl; [| exact F]. simpl. intros e H.
        repeat split; try apply H. right. apply H.
Qed.

Lemma saved_ids_app (c : uuid) (k tbl : string) (t l : list fdi_row) :
  saved_ids c k tbl (t ++ l)%list
  = (saved_ids c k tbl t ++ saved_ids c k tbl l)%list.
Proof.
  unfold saved_ids, SELECT. rewrite filter_app, map_app. reflexivity.
Qed.

Lemma active_ids_deactivated (d : defaults) (c : uuid) (k tbl : string)
  (s : db) :
  target_table k = Some tbl ->
  active_ids tbl c (deactivated_case d c k s) = [].
Proof.
  unfold target_table, active_ids. intros Ht.
  by_key k; inversion Ht; subst tbl; simpl; apply SELECT_after_UPDATE;
    first [apply active_of_switched_off | apply drv_active_of_switched_off].
Qed.

(** X4. After the deactivating branch has run for company [c] and a feature key
    with a table, that table holds no active row of [c]. *)
Theorem deactivation_leaves_none_active :
  forall (d : defaults) (op : tg_op) (OLD NEW : option cf_row) (s : db)
         (c : uuid) (k tbl : string),
    v_company_id OLD NEW = Some c ->
    v_feature_key OLD NEW s = Some k ->
    being_deactivated op OLD NEW = true ->
    target_table k = Some tbl ->
    active_ids tbl c (fst (handle_feature_toggle_cascade d op OLD NEW s)) = [].
Proof.
  intros d op OLD NEW s c k tbl Hc Hk Hd Ht.
  rewrite (handler_deactivating d _ _ _ s Hc Hk Hd).
  apply active_ids_deactivated, Ht.
Qed.

Lemma deactivation_leaves_none_active_witness :
  v_company_id (Some Example.coupons_on) (Some Example.coupons_off)
  = Some Example.T1
  /\ v_feature_key (Some Example.coupons_on) (Some Example.coupons_off)
       Example.s0 = Some "coupons"
  /\ being_deactivated UPDATE_op (Some Example.coupons_on)
       (Some Example.coupons_off) = true
  /\ target_table "coupons" = Some "coupons"
  /\ active_ids "coupons" Example.T1
       (fst (handle_feature_toggle_cascade Example.d0 UPDATE_op
               (Some Example.coupons_on) (Some Example.coupons_off)
               Example.s0)) = [].
Proof.
  repeat (split; [reflexivity |]).
  apply (@deactivation_leaves_none_active Example.d0 UPDATE_op
           (Some Example.coupons_on) (Some Example.coupons_off) Example.s0
           Example.T1 "coupons" "coupons"); reflexivity.
Defined.

Lemma saved_after_deactivation (d : defaults) (c : uuid) (k tbl : string)
  (s : db) :
  target_table k = Some tbl ->
  (exists l,
     feature_deactivated_items (deactivated_case d c k s)
     = (feature_deactivated_items s ++ l)%list
     /\ Forall (fun e =>
                  fdi_company_id e = c /\ feature_key e = k
                  /\ table_name e = tbl
                  /\ In (item_id e) (active_ids tbl c s)
                  /\ deactivated_at e = Some (now d)) l)
  /\ (forall i,
        In i (saved_ids c k tbl
                (feature_deactivated_items (deactivated_case d c k s)))
        <-> In i (saved_ids c k tbl (feature_deactivated_items s))
            \/ In i (active_ids tbl c s)).
Proof.
  intros Ht. rewrite saved_deactivated, Ht.
  destruct (INSERT_SELECT_appends d c k tbl (active_ids tbl c s) 0
              (feature_deactivated_items s)) as [l [E F]].
  split; [exists l; split; assumption |].
  intros i. split.
  - rewrite E, saved_ids_app. intros H. apply in_app_or in H.
    destruct H as [H | H]; [left; exact H | right].
    apply In_saved_ids in H. destruct H as [e [He Ee]].
    rewrite Forall_forall in F. destruct (F e He) as [_ [_ [_ [Hi _]]]].
    inversion Ee. subst. exact Hi.
  - intros [H | H].
    + rewrite E, saved_ids_app. apply in_or_app. left. exact H.
    + apply In_saved_ids. apply INSERT_SELECT_covers, H.
Qed.

(** X5. The deactivating branch only appends to [feature_deactivated_items]: the
    rows already there stay as they are, in place (an item saved earlier
    keeps its own timestamp).  Each row appended is for [(c, k)] and the table
    of [k], names a row of that table that was active and of [c], and is
    stamped with the time of the transaction.  Afterwards the ids saved for
    [(c, k)] and the table are those saved before together with the ids of the
    rows that were active. *)
Theorem deactivation_saves_active_rows :
  forall (d : defaults) (op : tg_op) (OLD NEW : option cf_row) (s : db)
         (c : uuid) (k tbl : string),
    v_company_id OLD NEW = Some c ->
    v_feature_key OLD NEW s = Some k ->
    being_deactivated op OLD NEW = true ->
    target_table k = Some tbl ->
    (exists l,
       feature_deactivated_items
         (fst (handle_feature_toggle_cascade d op OLD NEW s))
       = (feature_deactivated_items s ++ l)%list
       /\ Forall (fun e =>
                    fdi_company_id e = c /\ feature_key e = k
                    /\ table_name e = tbl
                    /\ In (item_id e) (active_ids tbl c s)
                    /\ deactivated_at e = Some (now d)) l)
    /\ (forall i,
          In i (saved_ids c k tbl
                  (feature_deactivated_items
                     (fst (handle_feature_toggle_cascade d op OLD NEW s))))
          <-> In i (saved_ids c k tbl (feature_deactivated_items s))
              \/ In i (active_ids tbl c s)).
Proof.
  intros d op OLD NEW s c k tbl Hc Hk Hd Ht.
  rewrite (handler_deactivating d _ _ _ s Hc Hk Hd).
  apply saved_after_deactivation, Ht.
Qed.

Lemma deactivation_saves_active_rows_witness :
  v_company_id (Some Example.coupons_on) (Some Example.coupons_off)
  = Some Example.T1
  /\ v_feature_key (Some Example.coupons_on) (Some Example.coupons_off)
       Example.s0 = Some "coupons"
  /\ being_deactivated UPDATE_op (Some Example.coupons_on)
       (Some Example.coupons_off) = true
  /\ target_table "coupons" = Some "coupons"
  /\ (forall i,
        In i (saved_ids Example.T1 "coupons" "coupons"
                (feature_deactivated_items
                   (fst (handle_feature_toggle_cascade Example.d0 UPDATE_op
                           (Some Example.coupons_on)
                           (Some Example.coupons_off) Example.s0))))
        <-> In i (saved_ids Example.T1 "coupons" "coupons"
                    (feature_deactivated_items Example.s0))
            \/ In i (active_ids "coupons" Example.T1 Example.s0)).
Proof.
  repeat (split; [reflexivity |]).
  apply (@deactivation_saves_active_rows Example.d0 UPDATE_op
           (Some Example.coupons_on) (Some Example.coupons_off) Example.s0
           Example.T1 "coupons" "coupons"); reflexivity.
Defined.

(** ** Saved items of other companies, features and tables *)

Lemma saved_for_other (c c' : uuid) (k k' tbl tbl' : string) (e : fdi_row) :
  c' <> c \/ k' <> k \/ tbl' <> tbl ->
  saved_for c k tbl e = true -> saved_for c' k' tbl' e = false.
Proof.
  intros H He. apply saved_for_iff in He. destruct He as [E1 [E2 E3]].
  destruct (saved_for c' k' tbl' e) eqn:He'; [| reflexivity].
  apply saved_for_iff in He'. destruct He' as [E1' [E2' E3']].
  exfalso. destruct H as [H | [H | H]]; apply H; congruence.
Qed.

Lemma saved_ids_INSERT_other (d : defaults) (c c' : uuid)
  (k k' tbl tbl' : string) (ids : list uuid) (t : list fdi_row) :
  c' <> c \/ k' <> k \/ tbl' <> tbl ->
  saved_ids c' k' tbl' (INSERT_SELECT d 0 c k tbl ids t)
  = saved_ids c' k' tbl' t.
Proof.
  intros H. destruct (INSERT_SELECT_appends d c k tbl ids 0 t) as [l [E F]].
  rewrite E, saved_ids_app.
  replace (saved_ids c' k' tbl' l) with (@nil uuid); [apply app_nil_r |].
  symmetry. apply SELECT_nothing. intros e He.
  rewrite Forall_forall in F. destruct (F e He) as [E1 [E2 [E3 _]]].
  apply (@saved_for_other c c' k k' tbl tbl' e H).
  apply saved_for_iff. auto.
Qed.

Lemma saved_ids_DELETE_other (c c' : uuid) (k k' tbl tbl' : string)
  (t : list fdi_row) :
  c' <> c \/ k' <> k \/ tbl' <> tbl ->
  saved_ids c' k' tbl' (DELETE (saved_for c k tbl) t) = saved_ids c' k' tbl' t.
Proof.
  intros H. unfold saved_ids, SELECT, DELETE.
  induction t as [| e t IH]; simpl; [reflexivity |].
  destruct (saved_for c k tbl e) eqn:He; simpl.
  - rewrite (saved_for_other e H He). exact IH.
  - destruct (saved_for c' k' tbl' e); simpl; rewrite IH; reflexivity.
Qed.

Lemma other_tuple (c c' : uuid) (k k' tbl tbl' : string) :
  Some c <> Some c' \/ Some k <> Some k' \/ target_table k' <> Some tbl' ->
  target_table k = Some tbl ->
  c' <> c \/ k' <> k \/ tbl' <> tbl.
Proof.
  intros H Ht.
  destruct (N.eq_dec c' c) as [-> | Hc]; [| left; exact Hc].
  destruct (string_dec k' k) as [-> | Hk]; [| right; left; exact Hk].
  destruct (string_dec tbl' tbl) as [-> | Hb]; [| right; right; exact Hb].
  exfalso. destruct H as [H | [H | H]]; apply H; congruence.
Qed.

(** X6. A call of the trigger function for one company and feature key leaves
    every other set of saved ids as it was: those of another company, of
    another feature key, and of a table that is not the table of the key. *)
Theorem other_snapshots_untouched :
  forall (d : defaults) (op : tg_op) (OLD NEW : option cf_row) (s : db)
         (c' : uuid) (k' tbl' : string),
    v_company_id OLD NEW <> Some c'
    \/ v_feature_key OLD NEW s <> Some k'
    \/ target_table k' <> Some tbl' ->
    saved_ids c' k' tbl'
      (feature_deactivated_items
         (fst (handle_feature_toggle_cascade d op OLD NEW s)))
    = saved_ids c' k' tbl' (feature_deactivated_items s).
Proof.
  intros d op OLD NEW s c' k' tbl' H.
  destruct (handler_cases d op OLD NEW s)
    as [E | [[c [k [Hc [Hk [_ E]]]]] | [c [k [Hc [Hk [_ [_ E]]]]]]]];
    rewrite E; simpl; [reflexivity | |]; rewrite Hc, Hk in H.
  - rewrite saved_deactivated.
    destruct (target_table k) as [tbl |] eqn:Ht; [| reflexivity].
    apply saved_ids_INSERT_other, (other_tuple H Ht).
  - rewrite saved_reactivated.
    destruct (target_table k) as [tbl |] eqn:Ht; [| reflexivity].
    apply saved_ids_DELETE_other, (other_tuple H Ht).
Qed.

Lemma other_snapshots_untouched_witness :
  (v_company_id (Some Example.drivers_on) (Some Example.drivers_off)
   <> Some Example.T1
   \/ v_feature_key (Some Example.drivers_on) (Some Example.drivers_off)
        Example.s1 <> Some "coupons"
   \/ target_table "coupons" <> Some "coupons")
  /\ saved_ids Example.T1 "coupons" "coupons"
       (feature_deactivated_items
          (fst (handle_feature_toggle_cascade Example.d0 UPDATE_op
                  (Some Example.drivers_on) (Some Example.drivers_off)
                  Example.s1)))
     = saved_ids Example.T1 "coupons" "coupons"
         (feature_deactivated_items Example.s1).
Proof.
  assert (v_feature_key (Some Example.drivers_on) (Some Example.drivers_off)
            Example.s1 <> Some "coupons") as H by discriminate.
  split; [right; left; exact H |].
  apply (@other_snapshots_untouched Example.d0 UPDATE_op
           (Some Example.drivers_on) (Some Example.drivers_off) Example.s1
           Example.T1 "coupons" "coupons").
  right. left. exact H.
Defined.

(** ** Which rows a restoration activates, which tables a call touches *)

Lemma restore_every_saved (R : Type) (rid : R -> uuid) (set : R -> R)
  (S : list uuid) (t : list R) :
  Forall2 (fun r r' => In (rid r) S -> r' = set r) t
    (UPDATE set (fun r => uuid_in (rid r) S) t).
Proof.
  unfold UPDATE. apply Forall2_map_In. intros r _ Hin.
  apply uuid_in_iff in Hin. rewrite Hin. reflexivity.
Qed.

Lemma saved_rows_activated_reactivated (c : uuid) (k : string) (s : db) :
  saved_rows_activated c k s (reactivated_case c k s).
Proof.
  unfold saved_rows_activated.
  repeat split; intros ->; simpl; apply restore_every_saved.
Qed.

(** X7. The reactivating branch sets [is_active] to true on every row of the
    table of the key whose id is among the saved ids for [(c, k)], whatever
    the row is by then: a row that was saved and that somebody has since
    switched off by hand is switched on again, and so is a row of that id
    that belongs to another company. No other column of the row is written. *)
Theorem restoration_activates_every_saved_row :
  forall (d : defaults) (op : tg_op) (OLD NEW : option cf_row) (s : db)
         (c : uuid) (k : string),
    v_company_id OLD NEW = Some c ->
    v_feature_key OLD NEW s = Some k ->
    being_reactivated op OLD NEW = true ->
    saved_rows_activated c k s
      (fst (handle_feature_toggle_cascade d op OLD NEW s)).
Proof.
  intros d op OLD NEW s c k Hc Hk Hr.
  rewrite (handler_reactivating d _ _ _ s Hc Hk Hr).
  apply saved_rows_activated_reactivated.
Qed.

Lemma restoration_activates_every_saved_row_witness :
  v_company_id (Some Example.coupons_off) (Some Example.coupons_on)
  = Some Example.T1
  /\ v_feature_key (Some Example.coupons_off) (Some Example.coupons_on)
       Example.s1 = Some "coupons"
  /\ being_reactivated UPDATE_op (Some Example.coupons_off)
       (Some Example.coupons_on) = true
  /\ saved_rows_activated Example.T1 "coupons" Example.s1
       (fst (handle_feature_toggle_cascade Example.d0 UPDATE_op
               (Some Example.coupons_off) (Some Example.coupons_on)
               Example.s1)).
Proof.
  repeat (split; [reflexivity |]).
  apply (@restoration_activates_every_saved_row Example.d0 UPDATE_op
           (Some Example.coupons_off) (Some Example.coupons_on) Example.s1
           Example.T1 "coupons"); reflexivity.
Defined.

Lemma not_this_key (k k0 : string) :
  Some k <> Some k0 -> String.eqb k k0 = false.
Proof.
  intros H. apply String.eqb_neq. congruence.
Qed.

(** X8. A call of the trigger function never writes [system_features] nor
    [company_features], and writes a target table only when the feature key
    of the row is the key of that table: a toggle of [coupons] leaves
    [promotions], [delivery_drivers] and [tables] as they are, and so on. *)
Theorem cascade_touches_one_table :
  forall (d : defaults) (op : tg_op) (OLD NEW : option cf_row) (s : db),
    system_features (fst (handle_feature_toggle_cascade d op OLD NEW s))
    = system_features s
    /\ company_features (fst (handle_feature_toggle_cascade d op OLD NEW s))
       = company_features s
    /\ (v_feature_key OLD NEW s <> Some "coupons" ->
        coupons (fst (handle_feature_toggle_cascade d op OLD NEW s))
        = coupons s)
    /\ (v_feature_key OLD NEW s <> Some "promotions" ->
        promotions (fst (handle_feature_toggle_cascade d op OLD NEW s))
        = promotions s)
    /\ (v_feature_key OLD NEW s <> Some "drivers" ->
        delivery_drivers (fst (handle_feature_toggle_cascade d op OLD NEW s))
        = delivery_drivers s)
    /\ (v_feature_key OLD NEW s <> Some "tables" ->
        tables (fst (handle_feature_toggle_cascade d op OLD NEW s))
        = tables s).
Proof.
  intros d op OLD NEW s.
  destruct (handler_cases d op OLD NEW s)
    as [E | [[c [k [_ [Hk [_ E]]]]] | [c [k [_ [Hk [_ [_ E]]]]]]]];
    rewrite E; simpl.
  - repeat split.
  - rewrite system_features_deactivated, company_features_deactivated,
      coupons_deactivated, promotions_deactivated,
      delivery_drivers_deactivated, tables_deactivated, Hk.
    repeat split; intros H; rewrite (not_this_key H); reflexivity.
  - rewrite system_features_reactivated, company_features_reactivated,
      coupons_reactivated, promotions_reactivated,
      delivery_drivers_reactivated, tables_reactivated, Hk.
    repeat split; intros H; rewrite (not_this_key H); reflexivity.
Qed.

Lemma cascade_touches_one_table_witness :
  v_feature_key (Some Example.coupons_on) (Some Example.coupons_off)
    Example.s0 <> Some "drivers"
  /\ delivery_drivers
       (fst (handle_feature_toggle_cascade Example.d0 UPDATE_op
               (Some Example.coupons_on) (Some Example.coupons_off)
               Example.s0))
     = delivery_drivers Example.s0.
Proof.
  assert (v_feature_key (Some Example.coupons_on) (Some Example.coupons_off)
            Example.s0 <> Some "drivers") as H by discriminate.
  split; [exact H |].
  apply (cascade_touches_one_table Example.d0 UPDATE_op
           (Some Example.coupons_on) (Some Example.coupons_off) Example.s0).
  exact H.
Defined.

(** ** Off then on, with nothing saved beforehand *)

Lemma db_ext (s s' : db) :
  system_features s' = system_features s ->
  company_features s' = company_features s ->
  coupons s' = coupons s ->
  promotions s' = promotions s ->
  delivery_drivers s' = delivery_drivers s ->
  tables s' = tables s ->
  feature_deactivated_items s' = feature_deactivated_items s ->
  s' = s.
Proof.
  destruct s, s'. simpl. intros. subst. reflexivity.
Qed.

Section RoundTrip.

Variable R : Type.
Variable rid : R -> uuid.
Variable cond : R -> bool.
Variables (d : defaults) (c : uuid) (k tbl : string).
Variable saved : list fdi_row.
Hypothesis nothing_saved : saved_ids c k tbl saved = [].

Lemma saved_is_selected (t : list R) (r : R) :
  NoDup (map rid t) -> In r t ->
  In (rid r)
     (saved_ids c k tbl
        (INSERT_SELECT d 0 c k tbl (SELECT rid cond t) saved)) ->
  cond r = true.
Proof.
  intros Hn Hr Hin. apply In_saved_ids in Hin. destruct Hin as [e [He E]].
  apply INSERT_SELECT_origin in He. destruct He as [He | [_ [_ [_ Hi]]]].
  - exfalso.
    assert (In (rid r) (saved_ids c k tbl saved)) as H.
    { apply In_saved_ids. exists e. auto. }
    rewrite nothing_saved in H. exact H.
  - inversion E as [[E1 E2 E3 E4]]. rewrite E4 in Hi.
    apply In_SELECT in Hi. destruct Hi as [r0 [Hr0 [C0 E0]]].
    rewrite <- (NoDup_same_key rid t r0 r Hn Hr0 Hr E0). exact C0.
Qed.

Lemma round_trip_table (set_off set_on : R -> R) (t : list R) :
  NoDup (map rid t) ->
  (forall r, rid (set_off r) = rid r) ->
  UPDATE set_on
    (fun r => uuid_in (rid r)
       (saved_ids c k tbl
          (INSERT_SELECT d 0 c k tbl (SELECT rid cond t) saved)))
    (UPDATE set_off cond t)
  = UPDATE (fun r => set_on (set_off r)) cond t.
Proof.
  intros Hn Hid. unfold UPDATE. rewrite map_map. apply map_ext_in.
  intros r Hr. destruct (cond r) eqn:C.
  - rewrite Hid. replace (uuid_in _ _) with true; [reflexivity |].
    symmetry. apply uuid_in_iff, selected_is_saved; assumption.
  - destruct (uuid_in _ _) eqn:Hin; [| reflexivity].
    apply uuid_in_iff in Hin.
    rewrite (saved_is_selected t r Hn Hr Hin) in C. discriminate C.
Qed.

Lemma round_trip_saved (ids : list uuid) :
  DELETE (saved_for c k tbl) (INSERT_SELECT d 0 c k tbl ids saved) = saved.
Proof.
  destruct (INSERT_SELECT_appends d c k tbl ids 0 saved) as [l [E F]].
  rewrite E. unfold DELETE. rewrite filter_app.
  replace (filter _ l) with (@nil fdi_row).
  - rewrite app_nil_r. apply forallb_filter_id. apply forallb_forall.
    intros e He. destruct (saved_for c k tbl e) eqn:Hs; [| reflexivity].
    exfalso.
    assert (In (item_id e) (saved_ids c k tbl saved)) as H.
    { apply In_SELECT. exists e. auto. }
    rewrite nothing_saved in H. exact H.
  - symmetry. apply filter_nothing. intros e He.
    rewrite Forall_forall in F. destruct (F e He) as [E1 [E2 [E3 _]]].
    replace (saved_for c k tbl e) with true; [reflexivity |].
    symmetry. apply saved_for_iff. auto.
Qed.

End RoundTrip.

Lemma UPDATE_same (R : Type) (set : R -> R) (cond : R -> bool) (t : list R) :
  (forall r, cond r = true -> set r = r) -> UPDATE set cond t = t.
Proof.
  intros H. unfold UPDATE. rewrite <- (map_id t) at 2. apply map_ext.
  intros r. destruct (cond r) eqn:C; [apply H, C | reflexivity].
Qed.

Lemma UPDATE_ext_cond (R : Type) (set set' : R -> R) (cond : R -> bool)
  (t : list R) :
  (forall r, cond r = true -> set r = set' r) ->
  UPDATE set cond t = UPDATE set' cond t.
Proof.
  intros H. unfold UPDATE. apply map_ext.
  intros r. destruct (cond r) eqn:C; [apply H, C | reflexivity].
Qed.

Lemma round_trip_case (d : defaults) (c : uuid) (k : string) (s : db) :
  primary_keys s ->
  (forall tbl, target_table k = Some tbl ->
     saved_ids c k tbl (feature_deactivated_items s) = []) ->
  reactivated_case c k (deactivated_case d c k s)
  = if String.eqb k "drivers"
    then with_delivery_drivers
           (UPDATE (set_is_available false) (drv_active_of c)
              (delivery_drivers s)) s
    else s.
Proof.
  intros [K1 [K2 [K3 K4]]] Hs.
  unfold reactivated_case, deactivated_case, target_table in *.
  by_key k; simpl in *; try reflexivity.
  - apply db_ext; simpl; try reflexivity.
    + rewrite round_trip_table by (auto; intros; reflexivity).
      apply UPDATE_same. intros r Hr. apply on_after_off.
      apply active_of_iff in Hr. apply Hr.
    + apply round_trip_saved. auto.
  - apply db_ext; simpl; try reflexivity.
    + rewrite round_trip_table by (auto; intros; reflexivity).
      apply UPDATE_same. intros r Hr. apply on_after_off.
      apply active_of_iff in Hr. apply Hr.
    + apply round_trip_saved. auto.
  - unfold with_delivery_drivers, clean_up, restore_delivery_drivers,
      switch_off_delivery_drivers, save_delivery_drivers,
      with_feature_deactivated_items. simpl.
    rewrite round_trip_table by (auto; intros; reflexivity).
    rewrite round_trip_saved by auto.
    f_equal. apply UPDATE_ext_cond. intros r Hr. apply drv_on_after_off.
    apply drv_active_of_iff in Hr. apply Hr.
  - apply db_ext; simpl; try reflexivity.
    + rewrite round_trip_table by (auto; intros; reflexivity).
      apply UPDATE_same. intros r Hr. apply on_after_off.
      apply active_of_iff in Hr. apply Hr.
    + apply round_trip_saved. auto.
Qed.

(** X9. Let [id] be a key of each target table and let no item be saved yet for
    company [c] and the feature.  Switching the feature off and on again,
    nothing happening in between, gives back the database as it was, saved
    items included, for every feature key but ["drivers"]: rows that were
    inactive stay inactive, rows of other companies are not touched. *)
Theorem off_then_on_is_identity :
  forall (d d' : defaults) (c f : uuid) (k : string) (s : db),
    select_key_into (Some f) (system_features s) = Some k ->
    k <> "drivers" ->
    primary_keys s ->
    (forall tbl, target_table k = Some tbl ->
       saved_ids c k tbl (feature_deactivated_items s) = []) ->
    switch_on d' c f (switch_off d c f s) = s.
Proof.
  intros d d' c f k s Hk Hn K Hs. unfold switch_on, switch_off.
  rewrite (trigger_switch_off d c f s Hk).
  rewrite (@trigger_switch_on d' c f k);
    [| rewrite system_features_deactivated; exact Hk].
  rewrite (@round_trip_case d c k s K Hs).
  apply String.eqb_neq in Hn. rewrite Hn. reflexivity.
Qed.

Lemma example_keys : primary_keys Example.s0.
Proof.
  unfold primary_keys. simpl.
  repeat split; repeat (constructor; [simpl; intuition discriminate |]);
    constructor.
Defined.

Lemma off_then_on_is_identity_witness :
  select_key_into (Some Example.f_coupons) (system_features Example.s0)
  = Some "coupons"
  /\ "coupons" <> "drivers"
  /\ primary_keys Example.s0
  /\ switch_on Example.d0 Example.T1 Example.f_coupons
       (switch_off Example.d0 Example.T1 Example.f_coupons Example.s0)
     = Example.s0.
Proof.
  split; [reflexivity | split; [discriminate | split; [exact example_keys |]]].
  apply (@off_then_on_is_identity Example.d0 Example.d0 Example.T1
           Example.f_coupons "coupons" Example.s0).
  - reflexivity.
  - discriminate.
  - exact example_keys.
  - intros tbl _. reflexivity.
Defined.

(** X10. Under the same conditions, for the feature key ["drivers"]:
    switching the feature off and on again gives back the database as it was
    except that the drivers of [c] who were active are no longer
    available. *)
Theorem drivers_off_then_on :
  forall (d d' : defaults) (c f : uuid) (s : db),
    select_key_into (Some f) (system_features s) = Some "drivers" ->
    primary_keys s ->
    saved_ids c "drivers" "delivery_drivers" (feature_deactivated_items s)
    = [] ->
    switch_on d' c f (switch_off d c f s)
    = with_delivery_drivers
        (UPDATE (set_is_available false) (drv_active_of c)
           (delivery_drivers s)) s.
Proof.
  intros d d' c f s Hk K Hs. unfold switch_on, switch_off.
  rewrite (trigger_switch_off d c f s Hk).
  rewrite (@trigger_switch_on d' c f "drivers");
    [| rewrite system_features_deactivated; exact Hk].
  rewrite (@round_trip_case d c "drivers" s K); [reflexivity |].
  intros tbl Ht. inversion Ht. exact Hs.
Qed.

Lemma drivers_off_then_on_witness :
  select_key_into (Some Example.f_drivers) (system_features Example.s0)
  = Some "drivers"
  /\ primary_keys Example.s0
  /\ saved_ids Example.T1 "drivers" "delivery_drivers"
       (feature_deactivated_items Example.s0) = []
  /\ switch_on Example.d0 Example.T1 Example.f_drivers
       (switch_off Example.d0 Example.T1 Example.f_drivers Example.s0)
     = with_delivery_drivers
         (UPDATE (set_is_available false) (drv_active_of Example.T1)
            (delivery_drivers Example.s0)) Example.s0.
Proof.
  split; [reflexivity | split; [exact example_keys | split; [reflexivity |]]].
  apply (@drivers_off_then_on Example.d0 Example.d0 Example.T1
           Example.f_drivers Example.s0).
  - reflexivity.
  - exact example_keys.
  - reflexivity.
Defined.

(** ** The saved items of every reachable database *)

Lemma handler_keeps_written (d : defaults) (op : tg_op)
  (OLD NEW : option cf_row) (s : db) :
  Forall written_by_cascade (feature_deactivated_items s) ->
  Forall written_by_cascade
    (feature_deactivated_items
       (fst (handle_feature_toggle_cascade d op OLD NEW s))).
Proof.
  intros H.
  destruct (handler_cases d op OLD NEW s)
    as [E | [[c [k [_ [_ [_ E]]]]] | [c [k [_ [_ [_ [_ E]]]]]]]];
    rewrite E; simpl.
  - exact H.
  - destruct (target_table k) as [tbl |] eqn:Ht.
    + destruct (@saved_after_deactivation d c k tbl s Ht) as [[l [El F]] _].
      rewrite El. apply Forall_app. split; [exact H |].
      eapply Forall_impl; [| exact F]. simpl.
      intros e [_ [Ek [Eb [_ Ed]]]]. split.
      * rewrite Ek, Eb. exact Ht.
      * rewrite Ed. discriminate.
    + rewrite saved_deactivated, Ht. exact H.
  - rewrite saved_reactivated. destruct (target_table k); [| exact H].
    rewrite Forall_forall in *. intros e He.
    apply In_DELETE in He. apply H, He.
Qed.

(** X11. In every database a history can reach from the creation of the table,
    whatever other writers do to the other tables, every saved item names the
    table of its feature key ([coupons], [promotions] and [tables] under
    their own name, [delivery_drivers] under ["drivers"]) and carries the
    time it was saved. *)
Theorem saved_items_written_by_cascade :
  forall s : db,
    reachable created any_writer s ->
    Forall written_by_cascade (feature_deactivated_items s).
Proof.
  induction 1 as [s Hc | s s' _ IH Hs].
  - unfold created in Hc. rewrite Hc. constructor.
  - destruct Hs as [d s n NEW | s c | s s' _ E].
    + unfold update_company_features.
      destruct (nth_error (company_features s) n) as [OLD |]; [| exact IH].
      unfold trigger_feature_toggle_cascade.
      destruct (is_distinct_from _ _); [| exact IH].
      apply handler_keeps_written. exact IH.
    + simpl. rewrite Forall_forall in *. intros e He.
      apply In_DELETE in He. apply IH, He.
    + rewrite E. exact IH.
Qed.

Lemma saved_items_written_by_cascade_witness :
  reachable created any_writer Example.t1
  /\ Forall written_by_cascade (feature_deactivated_items Example.t1).
Proof.
  assert (reachable created any_writer Example.t1) as H.
  { apply reachable_step with (s := Example.s0).
    - apply reachable_init. reflexivity.
    - apply step_update_flag. }
  split; [exact H | exact (saved_items_written_by_cascade H)].
Defined.

(** * Properties of the store setup status function *)

Module StoreSetupFacts.

Import StoreSetup.

Local Unset Implicit Arguments.

(** ** Trimming *)

Lemma trimStart_head (s : js_string) (c : N) (t : js_string) :
  trimStart s = c :: t -> is_white c = false.
Proof.
  induction s as [| x s IH]; simpl; [discriminate |].
  destruct (is_white x) eqn:W; [exact IH |].
  intros E. inversion E. subst. exact W.
Qed.

Lemma trimStart_fixed (c : N) (t : js_string) :
  is_white c = false -> trimStart (c :: t) = c :: t.
Proof. intros W. simpl. rewrite W. reflexivity. Qed.

Lemma trimStart_twice (s : js_string) : trimStart (trimStart s) = trimStart s.
Proof.
  destruct (trimStart s) as [| c t] eqn:E; [reflexivity |].
  apply trimStart_fixed, (trimStart_head s c t E).
Qed.

Lemma trimStart_empty (s : js_string) :
  trimStart s = [] <-> forallb is_white s = true.
Proof.
  induction s as [| x s IH]; simpl; [tauto |].
  destruct (is_white x); simpl; [exact IH |].
  split; discriminate.
Qed.

Lemma trimStart_keeps_last (l : js_string) (h : N) :
  is_white h = false ->
  exists l', trimStart (l ++ [h])%list = (l' ++ [h])%list.
Proof.
  intros W. induction l as [| x l IH]; simpl.
  - rewrite W. exists []. reflexivity.
  - destruct (is_white x); [exact IH |]. exists (x :: l). reflexivity.
Qed.

Lemma trim_empty (s : js_string) :
  trim s = [] <-> forallb is_white s = true.
Proof.
  unfold trim. rewrite <- trimStart_empty. split.
  - intros H. destruct (trimStart s) as [| c t] eqn:E; [reflexivity |].
    exfalso. pose proof (trimStart_head s c t E) as W.
    simpl in H. destruct (trimStart_keeps_last (rev t) c W) as [l' El].
    rewrite El, rev_app_distr in H. discriminate H.
  - intros ->. reflexivity.
Qed.

Lemma trim_twice (s : js_string) : trim (trim s) = trim s.
Proof.
  unfold trim. destruct (trimStart s) as [| c t] eqn:E; [reflexivity |].
  pose proof (trimStart_head s c t E) as W.
  change (rev (c :: t)) with (rev t ++ [c])%list.
  destruct (trimStart_keeps_last (rev t) c W) as [l' El].
  rewrite El, rev_app_distr.
  change (rev [c] ++ rev l')%list with (c :: rev l').
  rewrite (trimStart_fixed c (rev l') W).
  change (rev (c :: rev l')) with (rev (rev l') ++ [c])%list.
  rewrite rev_involutive, <- El, trimStart_twice, El, rev_app_distr.
  reflexivity.
Qed.

Lemma is_empty_iff (A : Type) (l : list A) : is_empty l = true <-> l = [].
Proof. destruct l; simpl; split; congruence. Qed.

Lemma js_eqb_eq (a b : js_string) : js_eqb a b = true <-> a = b.
Proof.
  revert b. induction a as [| x a IH]; destruct b as [| y b]; simpl;
    try (split; congruence).
  rewrite andb_true_iff, N.eqb_eq, IH. split.
  - intros [-> ->]. reflexivity.
  - intros E. inversion E. auto.
Qed.

(** ** The shape of every response *)

(** X12. Whatever the request and whatever the outside world answers, the
    handler responds with status 200, 400, 404 or 500 and with both CORS
    headers.  Only the preflight response has no body; every other response
    is JSON.
    An error body never comes with status 200, a report always does. *)
Theorem responses_well_formed :
  forall (w : world) (req : request),
    In (status (handler w req)) [200; 400; 404; 500]
    /\ (forall h, In h corsHeaders -> In h (headers (handler w req)))
    /\ (js_eqb (method req) (lit "OPTIONS") = true <->
        body (handler w req) = no_body)
    /\ (js_eqb (method req) (lit "OPTIONS") = false ->
        headers (handler w req) = json_headers)
    /\ (forall e, body (handler w req) = error_body e ->
        status (handler w req) <> 200)
    /\ (forall b m, body (handler w req) = report_body b m ->
        status (handler w req) = 200).
Proof.
  intros w req. unfold handler.
  destruct (js_eqb (method req) (lit "OPTIONS"));
    [| destruct (is_empty (slug_of req));
       [| destruct (createClient w);
          [| destruct (companies w (slug_of req)) as [e | e | [company |]];
             [| | destruct (company_payment_settings w (id company))
                     as [e | e | ps];
                   [| | destruct (negb (paymentOk company ps))] |]]]];
    cbn [status headers body caught report];
    (split; [simpl; tauto |]);
    (split;
     [intros h Hh; try exact Hh; unfold json_headers; apply in_or_app; left;
      exact Hh |]);
    (split; [split; congruence |]);
    (split; [congruence |]);
    split; congruence.
Qed.

Lemma responses_well_formed_witness :
  js_eqb (method (post_slug (lit "pizzaria"))) (lit "OPTIONS") = false
  /\ headers (handler (no_settings None) (post_slug (lit "pizzaria")))
     = json_headers.
Proof.
  split; [reflexivity |].
  apply (responses_well_formed (no_settings None)
           (post_slug (lit "pizzaria"))).
  reflexivity.
Defined.

(** ** Requests without a slug *)

Lemma slug_of_empty (req : request) :
  slug_of req = [] <->
  (forall members s,
     parsed_body req = Some (JObject members) ->
     get (lit "slug") members = Some (JString s) ->
     forallb is_white s = true).
Proof.
  unfold slug_of. split.
  - intros H members s Hb Hg. rewrite Hb, Hg in H. apply trim_empty, H.
  - intros H. destruct (parsed_body req) as [[| | | | | members] |];
      try reflexivity.
    destruct (get (lit "slug") members) as [[| | | s | |] |] eqn:Hg;
      try reflexivity.
    apply trim_empty, (H members s eq_refl Hg).
Qed.

(** X13. A request other than a preflight is answered 400, "slug is required",
    exactly when its body does not parse to an object whose [slug] is a
    string with a code unit that is not white space: a body that is not
    JSON, is not an object, has no [slug], has a [slug] that is not a string,
    or has a blank one.  The answer is then the same whatever the outside
    world: neither the client nor a query is consulted. *)
Theorem slug_required :
  forall (w : world) (req : request),
    js_eqb (method req) (lit "OPTIONS") = false ->
    (handler w req
     = {| status := 400;
          headers := json_headers;
          body := error_body (lit "slug is required") |}
     <-> (forall members s,
            parsed_body req = Some (JObject members) ->
            get (lit "slug") members = Some (JString s) ->
            forallb is_white s = true)).
Proof.
  intros w req Hm. rewrite <- (slug_of_empty req).
  rewrite <- (is_empty_iff _ (slug_of req)).
  unfold handler. rewrite Hm.
  destruct (is_empty (slug_of req)); [tauto |].
  split; [| discriminate]. intros H. exfalso.
  assert (status (match createClient w with
                  | Some e => caught e
                  | None =>
                      match companies w (slug_of req) with
                      | Threw e => caught e
                      | Failed companyError => caught companyError
                      | Data None =>
                          {| status := 404; headers := json_headers;
                             body := error_body (lit "Company not found") |}
                      | Data (Some company) =>
                          match company_payment_settings w (id company) with
                          | Threw e => caught e
                          | Failed _ =>
                              report (profile_missing company
                                      ++ [key_payment])%list
                          | Data ps =>
                              if negb (paymentOk company ps)
                              then report (profile_missing company
                                           ++ [key_payment])%list
                              else report (profile_missing company)
                          end
                      end
                  end) = 400) as Hs by (rewrite H; reflexivity).
  clear H.
  destruct (createClient w); [discriminate Hs |].
  destruct (companies w (slug_of req)) as [e | e | [company |]];
    try discriminate Hs.
  destruct (company_payment_settings w (id company)) as [e | e | ps];
    try discriminate Hs.
  destruct (negb (paymentOk company ps)); discriminate Hs.
Qed.

Lemma slug_required_witness :
  js_eqb (method (post_slug (lit "  "))) (lit "OPTIONS") = false
  /\ handler broken_payments (post_slug (lit "  "))
     = {| status := 400;
          headers := json_headers;
          body := error_body (lit "slug is required") |}.
Proof.
  split; [reflexivity |].
  apply (slug_required broken_payments (post_slug (lit "  ")));
    [reflexivity |].
  intros members s Hb Hg. inversion Hb. subst members.
  inversion Hg. reflexivity.
Defined.

(** X14. Two requests that differ only in the white space around the slug are
    answered alike. *)
Theorem slug_is_trimmed :
  forall (w : world) (s : js_string),
    handler w (post_slug (trim s)) = handler w (post_slug s).
Proof.
  intros w s. unfold handler.
  assert (slug_of (post_slug (trim s)) = slug_of (post_slug s)) as E.
  { unfold slug_of, post_slug. simpl. apply trim_twice. }
  rewrite E. reflexivity.
Qed.

(** ** What the report lists as missing *)

Lemma truthy_filled (s : option js_string) : truthy s = true <-> filled s.
Proof.
  unfold filled. destruct s as [[| c t] |]; simpl; split;
    try discriminate; try (intros [c' [t' E]]; discriminate E).
  - intros _. exists c, t. reflexivity.
  - reflexivity.
Qed.

Lemma truthy_not_filled (s : option js_string) :
  truthy s = false <-> ~ filled s.
Proof.
  rewrite <- truthy_filled. destruct (truthy s); split; congruence.
Qed.

Lemma some_not_white (t : js_string) :
  forallb is_white t = false <-> exists c, In c t /\ is_white c = false.
Proof.
  induction t as [| x t IH]; simpl.
  - split; [discriminate | intros [c [[] _]]].
  - destruct (is_white x) eqn:W; simpl.
    + rewrite IH. split.
      * intros [c [Hc Wc]]. exists c. auto.
      * intros [c [[E | Hc] Wc]]; [congruence | exists c; auto].
    + split; [| reflexivity]. intros _. exists x. auto.
Qed.

Lemma name_present (company : company_row) :
  name_missing company = false <-> not_blank (name company).
Proof.
  unfold name_missing, not_blank.
  destruct (name company) as [t |]; simpl.
  - assert (truthy (Some (trim t)) = true <-> forallb is_white t = false)
      as Ht.
    { destruct (trim t) as [| c u] eqn:E; simpl.
      - apply trim_empty in E. rewrite E. split; discriminate.
      - destruct (forallb is_white t) eqn:F; [| tauto].
        apply trim_empty in F. congruence. }
    split.
    + intros H. apply orb_false_iff in H. destruct H as [_ H].
      apply negb_false_iff, Ht, some_not_white in H.
      destruct H as [c [Hc Wc]]. exists t, c. auto.
    + intros [t' [c [E [Hc Wc]]]]. inversion E. subst t'.
      assert (forallb is_white t = false) as F.
      { apply some_not_white. exists c. auto. }
      apply orb_false_iff. split.
      * destruct t; [contradiction | reflexivity].
      * apply negb_false_iff, Ht, F.
  - split; [discriminate |]. intros [t [c [E _]]]. discriminate E.
Qed.

Lemma name_absent (company : company_row) :
  name_missing company = true <-> ~ not_blank (name company).
Proof.
  rewrite <- name_present. destruct (name_missing company); split; congruence.
Qed.

Lemma truthy_flag_true (b : option bool) :
  truthy_flag b = true <-> b = Some true.
Proof. destruct b as [[|] |]; simpl; split; congruence. Qed.

Lemma online_ready (ps : option payment_settings_row) :
  onlinePaymentOk ps = true <-> gateway_ready ps.
Proof.
  unfold onlinePaymentOk, gateway_ready.
  destruct (js_eqb (activeGateway ps) (lit "mercadopago")) eqn:M;
    [| destruct (js_eqb (activeGateway ps) (lit "picpay")) eqn:P].
  - apply js_eqb_eq in M. destruct ps as [r |].
    + rewrite andb_true_iff, !truthy_flag_true. split.
      * intros [H1 H2]. exists r. auto.
      * intros [r' [E [[_ H] | [G _]]]]; inversion E; subst r'.
        -- exact H.
        -- rewrite M in G. discriminate G.
    + split; [discriminate |]. intros [r [E _]]. discriminate E.
  - apply js_eqb_eq in P. destruct ps as [r |].
    + rewrite andb_true_iff, !truthy_flag_true. split.
      * intros [H1 H2]. exists r. auto.
      * intros [r' [E [[G _] | [_ H]]]]; inversion E; subst r'.
        -- rewrite P in G. discriminate G.
        -- exact H.
    + split; [discriminate |]. intros [r [E _]]. discriminate E.
  - split; [discriminate |].
    intros [r [_ [[G _] | [G _]]]]; apply js_eqb_eq in G; congruence.
Qed.

Lemma payment_not_ok (company : company_row)
  (ps : option payment_settings_row) :
  negb (paymentOk company ps) = true
  <-> ~ filled (pix_key company) /\ ~ gateway_ready ps.
Proof.
  unfold paymentOk.
  rewrite negb_true_iff, orb_false_iff, truthy_not_filled.
  rewrite <- online_ready.
  destruct (onlinePaymentOk ps); split; intros [H1 H2]; split;
    congruence.
Qed.

Lemma profile_missing_members (company : company_row) :
  (In key_name (profile_missing company) <-> name_missing company = true)
  /\ (In key_logo (profile_missing company)
      <-> truthy (logo_url company) = false)
  /\ (In key_cover (profile_missing company)
      <-> truthy (cover_url company) = false)
  /\ (In key_niche (profile_missing company)
      <-> truthy (niche company) = false)
  /\ (In key_phone (profile_missing company)
      <-> truthy (phone company) = false)
  /\ (In key_email (profile_missing company)
      <-> truthy (email company) = false)
  /\ ~ In key_payment (profile_missing company).
Proof.
  unfold profile_missing.
  destruct (name_missing company), (truthy (logo_url company)),
    (truthy (cover_url company)), (truthy (niche company)),
    (truthy (phone company)), (truthy (email company)); simpl;
    repeat split; try discriminate; try reflexivity;
    try (intros H; repeat (destruct H as [H | H]; try discriminate H);
         try contradiction; try reflexivity);
    auto 10.
Qed.

Lemma found_report (w : world) (req : request) (company : company_row) :
  found w req company ->
  handler w req
  = match company_payment_settings w (id company) with
    | Threw e => caught e
    | Failed _ => report (profile_missing company ++ [key_payment])%list
    | Data ps =>
        if negb (paymentOk company ps)
        then report (profile_missing company ++ [key_payment])%list
        else report (profile_missing company)
    end.
Proof.
  intros [Hm [Hs [Hc Hq]]]. unfold handler. rewrite Hm, Hc, Hq.
  destruct (is_empty (slug_of req)) eqn:E; [| reflexivity].
  apply is_empty_iff in E. contradiction.
Qed.

(** X15. When the company is found and the payment settings are read (a row or
    none), the handler reports, and the report lists a key exactly when the
    matching datum is missing: [name] when the name is null or holds only
    white space; [logo], [cover], [niche], [phone], [email] when the column
    is null or the empty string (a blank one counts as present); [payment]
    when there is no PIX key and the gateway the settings select
    ([mercadopago] when they select none) is not both enabled and verified.
    The flags of the other gateway play no part, and a gateway of another
    name never counts. *)
Theorem missing_keys_characterised :
  forall (w : world) (req : request) (company : company_row)
         (ps : option payment_settings_row),
    found w req company ->
    company_payment_settings w (id company) = Data ps ->
    exists missing,
      handler w req = report missing
      /\ (In key_name missing <-> ~ not_blank (name company))
      /\ (In key_logo missing <-> ~ filled (logo_url company))
      /\ (In key_cover missing <-> ~ filled (cover_url company))
      /\ (In key_niche missing <-> ~ filled (niche company))
      /\ (In key_phone missing <-> ~ filled (phone company))
      /\ (In key_email missing <-> ~ filled (email company))
      /\ (In key_payment missing
          <-> ~ filled (pix_key company) /\ ~ gateway_ready ps).
Proof.
  intros w req company ps Hf Hp.
  rewrite (found_report w req company Hf), Hp.
  destruct (profile_missing_members company)
    as [M1 [M2 [M3 [M4 [M5 [M6 M7]]]]]].
  rewrite name_absent in M1. rewrite truthy_not_filled in M2, M3, M4, M5, M6.
  destruct (negb (paymentOk company ps)) eqn:P.
  - exists (profile_missing company ++ [key_payment])%list.
    split; [reflexivity |].
    rewrite !in_app_iff. simpl.
    apply payment_not_ok in P.
    repeat split; try tauto;
      try (intros [H | [H | []]]; [tauto | discriminate H]);
      try (intros H; left; tauto).
  - exists (profile_missing company). split; [reflexivity |].
    assert (~ (~ filled (pix_key company) /\ ~ gateway_ready ps)) as P'.
    { intros H. apply payment_not_ok in H. congruence. }
    tauto.
Qed.

Lemma missing_keys_characterised_witness :
  found (no_settings None) (post_slug (lit " pizzaria ")) shop
  /\ company_payment_settings (no_settings None) (id shop) = Data None
  /\ exists missing,
       handler (no_settings None) (post_slug (lit " pizzaria "))
       = report missing
       /\ (In key_name missing <-> ~ not_blank (name shop))
       /\ (In key_logo missing <-> ~ filled (logo_url shop))
       /\ (In key_cover missing <-> ~ filled (cover_url shop))
       /\ (In key_niche missing <-> ~ filled (niche shop))
       /\ (In key_phone missing <-> ~ filled (phone shop))
       /\ (In key_email missing <-> ~ filled (email shop))
       /\ (In key_payment missing
           <-> ~ filled (pix_key shop) /\ ~ gateway_ready None).
Proof.
  assert (found (no_settings None) (post_slug (lit " pizzaria ")) shop) as F.
  { repeat split. discriminate. }
  split; [exact F | split; [reflexivity |]].
  exact (missing_keys_characterised (no_settings None)
           (post_slug (lit " pizzaria ")) shop None F eq_refl).
Defined.

(** X16. Fail safe.  When the company is found but the payment settings query
    reports an error, the handler still answers 200 and the report is
    blocked with [payment] listed, whatever the company's PIX key. *)
Theorem payment_error_blocks :
  forall (w : world) (req : request) (company : company_row) (e : js_error),
    found w req company ->
    company_payment_settings w (id company) = Failed e ->
    exists missing,
      handler w req
      = {| status := 200;
           headers := json_headers;
           body := report_body true missing |}
      /\ In key_payment missing.
Proof.
  intros w req company e Hf Hp.
  rewrite (found_report w req company Hf), Hp.
  exists (profile_missing company ++ [key_payment])%list. split.
  - unfold report. f_equal. f_equal.
    destruct (profile_missing company); reflexivity.
  - apply in_or_app. right. left. reflexivity.
Qed.

Lemma payment_error_blocks_witness :
  found broken_payments (post_slug (lit "pizzaria")) shop_with_pix
  /\ company_payment_settings broken_payments (id shop_with_pix)
     = Failed timeout
  /\ exists missing,
       handler broken_payments (post_slug (lit "pizzaria"))
       = {| status := 200;
            headers := json_headers;
            body := report_body true missing |}
       /\ In key_payment missing.
Proof.
  assert (found broken_payments (post_slug (lit "pizzaria")) shop_with_pix)
    as F.
  { repeat split. discriminate. }
  split; [exact F | split; [reflexivity |]].
  exact (payment_error_blocks broken_payments (post_slug (lit "pizzaria"))
           shop_with_pix timeout F eq_refl).
Defined.

Lemma report_keys (b1 b2 b3 b4 b5 b6 b7 : bool) :
  let m := ((if b1 then [key_name] else [])
            ++ (if b2 then [key_logo] else [])
            ++ (if b3 then [key_cover] else [])
            ++ (if b4 then [key_niche] else [])
            ++ (if b5 then [key_phone] else [])
            ++ (if b6 then [key_email] else [])
            ++ (if b7 then [key_payment] else []))%list in
  subsequence m all_keys /\ NoDup m.
Proof.
  destruct b1, b2, b3, b4, b5, b6, b7; simpl; split;
    try tauto;
    repeat (constructor; [simpl; intuition discriminate |]); constructor.
Qed.

Lemma profile_then_payment (company : company_row) (b7 : bool) :
  subsequence
    (profile_missing company ++ (if b7 then [key_payment] else []))%list
    all_keys
  /\ NoDup
       (profile_missing company ++ (if b7 then [key_payment] else []))%list.
Proof.
  unfold profile_missing. rewrite <- !app_assoc.
  apply (report_keys (name_missing company)
           (negb (truthy (logo_url company)))
           (negb (truthy (cover_url company)))
           (negb (truthy (niche company)))
           (negb (truthy (phone company)))
           (negb (truthy (email company))) b7).
Qed.

(** X17. Whenever the handler reports, the keys listed are in the order [name],
    [logo], [cover], [niche], [phone], [email], [payment], each at most
    once, and [blocked] is true exactly when some key is listed. *)
Theorem report_is_ordered :
  forall (w : world) (req : request) (blocked : bool)
         (missing : list MissingKey),
    body (handler w req) = report_body blocked missing ->
    subsequence missing all_keys
    /\ NoDup missing
    /\ (blocked = false <-> missing = []).
Proof.
  intros w req blocked missing. unfold handler.
  assert (forall company (b7 : bool),
            body (report (profile_missing company
                          ++ (if b7 then [key_payment] else []))%list)
            = report_body blocked missing ->
            subsequence missing all_keys /\ NoDup missing
            /\ (blocked = false <-> missing = [])) as Hr.
  { intros company b7 H. unfold report in H. simpl in H.
    inversion H as [[Hb Hm]].
    destruct (profile_then_payment company b7) as [S N].
    split; [exact S | split; [exact N |]].
    rewrite negb_false_iff. apply is_empty_iff. }
  destruct (js_eqb (method req) (lit "OPTIONS")); [discriminate |].
  destruct (is_empty (slug_of req)); [discriminate |].
  destruct (createClient w); [discriminate |].
  destruct (companies w (slug_of req)) as [e | e | [company |]];
    try discriminate.
  destruct (company_payment_settings w (id company)) as [e | e | ps];
    [discriminate | apply (Hr company true) |].
  destruct (negb (paymentOk company ps)); [apply (Hr company true) |].
  intros H. apply (Hr company false). rewrite app_nil_r. exact H.
Qed.

Lemma report_is_ordered_witness :
  body (handler (no_settings None) (post_slug (lit "pizzaria")))
  = report_body true [key_cover; key_payment]
  /\ subsequence [key_cover; key_payment] all_keys.
Proof.
  split; [reflexivity |].
  apply (report_is_ordered (no_settings None) (post_slug (lit "pizzaria"))
           true [key_cover; key_payment]).
  reflexivity.
Defined.

End StoreSetupFacts.

(** * Properties of the email template variables *)

Module EmailTemplatesFacts.

Import StoreSetup.
Import EmailTemplates.

Local Unset Implicit Arguments.

(** ** The engine to compute with *)

Lemma key_of_pattern_source (key : js_string) :
  key_of_source (pattern_source key) = Some key.
Proof.
  unfold key_of_source, pattern_source.
  change (lit "\{\{" ++ key ++ lit "\}\}")%list
    with (92 :: 123 :: 92 :: 123 :: (key ++ lit "\}\}"))%N%list.
  change (starts_with (lit "\{\{")
            (92 :: 123 :: 92 :: 123 :: (key ++ lit "\}\}"))%N%list)
    with true.
  cbv iota.
  change (skipn 4 (92 :: 123 :: 92 :: 123 :: (key ++ lit "\}\}"))%N%list)
    with (key ++ lit "\}\}")%list.
  replace (List.length (92 :: 123 :: 92 :: 123 :: (key ++ lit "\}\}"))%N%list
           - 8) with (List.length key).
  - rewrite skipn_app, skipn_all, Nat.sub_diag.
    rewrite firstn_app, firstn_all, Nat.sub_diag.
    simpl. rewrite app_nil_r. reflexivity.
  - cbn [List.length]. rewrite length_app. simpl. lia.
Qed.

Lemma plain_engine_literal : literal_on_plain_keys plain_engine.
Proof.
  intros key replacement str Hk. unfold plain_engine.
  rewrite key_of_pattern_source, Hk. reflexivity.
Qed.

(** ** Matching *)

Lemma starts_with_prefix (pat b : js_string) :
  starts_with pat (pat ++ b)%list = true.
Proof.
  induction pat as [| x pat IH]; simpl; [reflexivity |].
  rewrite N.eqb_refl. exact IH.
Qed.

Lemma starts_with_split (pat s : js_string) :
  starts_with pat s = true -> exists b, s = (pat ++ b)%list.
Proof.
  revert s. induction pat as [| x pat IH]; intros s; simpl.
  - intros _. exists s. reflexivity.
  - destruct s as [| y s]; [discriminate |].
    intros H. apply andb_true_iff in H. destruct H as [E H].
    apply N.eqb_eq in E. subst y.
    destruct (IH s H) as [b Eb]. exists b. rewrite Eb. reflexivity.
Qed.

Lemma replace_from_no_match (pat replacement str : js_string) :
  forall (rest : js_string) (position : nat),
    ~ occurs pat rest ->
    replace_from pat replacement str position 0 rest = rest.
Proof.
  induction rest as [| c rest IH]; intros position Hn; simpl; [reflexivity |].
  destruct (starts_with pat (c :: rest)) eqn:S.
  - exfalso. apply Hn. destruct (starts_with_split _ _ S) as [b Eb].
    exists [], b. exact Eb.
  - f_equal. apply IH. intros [a [b E]]. apply Hn.
    exists (c :: a), b. rewrite E. reflexivity.
Qed.

(** X18. Text that holds the placeholder of none of the variables is returned as
    it is: plain text, and placeholders of keys that are not given, are left
    alone. *)
Theorem text_without_placeholders_unchanged :
  forall (RegExp_replace : engine) (html : js_string)
         (variables : list (js_string * value)),
    literal_on_plain_keys RegExp_replace ->
    plain_keys variables ->
    (forall key v, In (key, v) variables -> ~ occurs (placeholder key) html) ->
    replaceTemplateVariables RegExp_replace html variables = Some html
    /\ replaceSubjectVariables RegExp_replace html variables = Some html.
Proof.
  intros E html variables HE Hp Hn.
  assert (replaceTemplateVariables E html variables = Some html) as H.
  { induction variables as [| [key v] variables IH]; simpl; [reflexivity |].
    rewrite (HE key (String_of v) html (Hp key v (or_introl eq_refl))).
    unfold replace. rewrite replace_from_no_match.
    - apply IH.
      + intros key' v' H'. apply (Hp key' v'). right. exact H'.
      + intros key' v' H'. apply (Hn key' v'). right. exact H'.
    - apply (Hn key v). left. reflexivity. }
  split; [exact H | exact H].
Qed.

Lemma occurs_occursb (pat s : js_string) :
  occurs pat s -> occursb pat s = true.
Proof.
  intros [a [b E]]. subst s. induction a as [| c a IH].
  - destruct (pat ++ b)%list eqn:Ep; simpl;
      rewrite <- Ep, starts_with_prefix; reflexivity.
  - simpl. rewrite IH. apply orb_true_r.
Qed.

Lemma text_without_placeholders_unchanged_witness :
  literal_on_plain_keys plain_engine
  /\ plain_keys [(lit "idade", VNumber (lit "30"))]
  /\ ~ occurs (placeholder (lit "idade")) (lit "Ola {{nome}}")
  /\ replaceTemplateVariables plain_engine (lit "Ola {{nome}}")
       [(lit "idade", VNumber (lit "30"))]
     = Some (lit "Ola {{nome}}").
Proof.
  assert (plain_keys [(lit "idade", VNumber (lit "30"))]) as Hp.
  { intros key v [E | []]. inversion E. reflexivity. }
  assert (~ occurs (placeholder (lit "idade")) (lit "Ola {{nome}}")) as Hn.
  { intros H. apply occurs_occursb in H. discriminate H. }
  split; [exact plain_engine_literal | split; [exact Hp | split; [exact Hn |]]].
  apply (text_without_placeholders_unchanged plain_engine
           (lit "Ola {{nome}}") [(lit "idade", VNumber (lit "30"))]
           plain_engine_literal Hp).
  intros key v [E | []]. inversion E. exact Hn.
Defined.

(** ** Values with a dollar sign *)

Lemma replace_from_same (pat replacement str : js_string) :
  pat <> [] ->
  (forall before after,
     GetSubstitution pat before after replacement = pat) ->
  forall (rest : js_string) (position skip : nat),
    replace_from pat replacement str position skip rest = skipn skip rest.
Proof.
  intros Hne Hsame.
  induction rest as [| c rest IH]; intros position skip; simpl.
  - destruct skip; reflexivity.
  - destruct skip as [| skip]; [| apply IH].
    destruct (starts_with pat (c :: rest)) eqn:S.
    + rewrite Hsame, IH.
      destruct (starts_with_split _ _ S) as [b Eb].
      destruct pat as [| x p]; [congruence |].
      simpl in Eb. inversion Eb as [[Ec Er]]. simpl.
      rewrite Nat.sub_0_r.
      rewrite skipn_app, skipn_all, Nat.sub_diag. reflexivity.
    + rewrite IH. reflexivity.
Qed.

Lemma placeholder_not_empty (key : js_string) : placeholder key <> [].
Proof. unfold placeholder. simpl. discriminate. Qed.

Lemma GetSubstitution_matched (matched before after : js_string) :
  GetSubstitution matched before after (lit "$&") = matched.
Proof. simpl. apply app_nil_r. Qed.

(** X19. The value is not inserted as it stands: it is read as a replacement
    pattern.  The value [$&] stands for the matched text, so giving it to a
    key puts every placeholder of that key back and returns the text as it
    was. *)
Theorem dollar_ampersand_keeps_placeholder :
  forall (RegExp_replace : engine) (html key : js_string),
    literal_on_plain_keys RegExp_replace ->
    existsb syntax_character key = false ->
    replaceTemplateVariables RegExp_replace html
      [(key, VString (lit "$&"))]
    = Some html.
Proof.
  intros E html key HE Hk. cbn [replaceTemplateVariables String_of].
  rewrite (HE key (lit "$&") html Hk).
  unfold replace. rewrite replace_from_same.
  - reflexivity.
  - apply placeholder_not_empty.
  - intros before after. apply GetSubstitution_matched.
Qed.

Lemma dollar_ampersand_keeps_placeholder_witness :
  literal_on_plain_keys plain_engine
  /\ existsb syntax_character (lit "nome") = false
  /\ replaceTemplateVariables plain_engine (lit "Ola {{nome}}!")
       [(lit "nome", VString (lit "$&"))]
     = Some (lit "Ola {{nome}}!").
Proof.
  split; [exact plain_engine_literal | split; [reflexivity |]].
  apply (dollar_ampersand_keeps_placeholder plain_engine
           (lit "Ola {{nome}}!") (lit "nome") plain_engine_literal).
  reflexivity.
Defined.

(** ** Values without a dollar sign *)

Lemma GetSubstitution_plain (matched before after : js_string) :
  forall replacement,
    existsb (N.eqb 36) replacement = false ->
    GetSubstitution matched before after replacement = replacement.
Proof.
  induction replacement as [| c rest IH]; [reflexivity |].
  intros H. cbn [existsb] in H.
  apply orb_false_iff in H. destruct H as [Hc Hr].
  cbn [GetSubstitution]. rewrite (N.eqb_sym c 36), Hc.
  f_equal. apply IH, Hr.
Qed.

Lemma replace_from_cons (pat replacement str : js_string) (position : nat)
  (c : N) (rest : js_string) :
  replace_from pat replacement str position 0 (c :: rest)
  = if starts_with pat (c :: rest) then
      (GetSubstitution pat (firstn position str)
         (skipn (position + List.length pat) str) replacement
       ++ replace_from pat replacement str (S position)
            (List.length pat - 1) rest)%list
    else c :: replace_from pat replacement str (S position) 0 rest.
Proof. reflexivity. Qed.

Lemma replace_from_plain (pat replacement : js_string) :
  existsb (N.eqb 36) replacement = false ->
  forall (rest str str' : js_string) (position position' skip : nat),
    replace_from pat replacement str position skip rest
    = replace_from pat replacement str' position' skip rest.
Proof.
  intros Hp. induction rest as [| c rest IH];
    intros str str' position position' skip; [reflexivity |].
  destruct skip as [| skip]; [| apply IH].
  rewrite !replace_from_cons, !GetSubstitution_plain by exact Hp.
  rewrite (IH str str' (S position) (S position') (List.length pat - 1)).
  rewrite (IH str str' (S position) (S position') 0).
  reflexivity.
Qed.

Lemma replace_from_brace_free (p replacement str : js_string) :
  forall (a rest : js_string) (position : nat),
    existsb (N.eqb 123) a = false ->
    replace_from (123%N :: p) replacement str position 0 (a ++ rest)%list
    = (a ++ replace_from (123%N :: p) replacement str
              (position + List.length a) 0 rest)%list.
Proof.
  induction a as [| c a IH]; intros rest position Ha.
  - simpl. rewrite Nat.add_0_r. reflexivity.
  - cbn [existsb] in Ha. apply orb_false_iff in Ha. destruct Ha as [Hc Ha].
    change ((c :: a) ++ rest)%list with (c :: (a ++ rest))%list.
    rewrite replace_from_cons.
    replace (starts_with (123%N :: p) (c :: (a ++ rest)%list)) with false
      by (cbn [starts_with]; rewrite Hc; reflexivity).
    rewrite (IH rest (S position) Ha). cbn [List.length app].
    rewrite Nat.add_succ_r. reflexivity.
Qed.

Lemma replace_from_skip (pat replacement str : js_string) :
  forall (p b : js_string) (position : nat),
    replace_from pat replacement str position (List.length p) (p ++ b)%list
    = replace_from pat replacement str (position + List.length p) 0 b.
Proof.
  induction p as [| c p IH]; intros b position; simpl.
  - rewrite Nat.add_0_r. destruct b; reflexivity.
  - rewrite IH, Nat.add_succ_r. reflexivity.
Qed.

Lemma replace_first (p replacement a b : js_string) :
  existsb (N.eqb 36) replacement = false ->
  existsb (N.eqb 123) a = false ->
  replace (123%N :: p) replacement (a ++ (123%N :: p) ++ b)%list
  = (a ++ replacement ++ replace (123%N :: p) replacement b)%list.
Proof.
  intros Hr Ha. unfold replace.
  rewrite replace_from_brace_free by exact Ha. f_equal.
  change ((123%N :: p) ++ b)%list with (123%N :: (p ++ b))%list.
  rewrite replace_from_cons.
  change (123%N :: (p ++ b))%list with ((123%N :: p) ++ b)%list.
  rewrite starts_with_prefix, GetSubstitution_plain by exact Hr.
  f_equal.
  change (List.length (123%N :: p) - 1) with (List.length p - 0).
  rewrite Nat.sub_0_r, replace_from_skip.
  apply replace_from_plain, Hr.
Qed.

(** X20. Take an engine that treats keys without syntax characters
    literally, and such a key.  A value without a dollar sign is inserted as
    it stands: when the text before a placeholder of the key holds no
    opening brace, that placeholder is the first match, and the result is
    the text before it, the value, and the rest of the text treated in the
    same way. *)
Theorem plain_value_inserted :
  forall (RegExp_replace : engine) (a b key : js_string) (v : value),
    literal_on_plain_keys RegExp_replace ->
    existsb syntax_character key = false ->
    existsb (N.eqb 36) (String_of v) = false ->
    existsb (N.eqb 123) a = false ->
    replaceTemplateVariables RegExp_replace
      (a ++ placeholder key ++ b)%list [(key, v)]
    = option_map (fun r => (a ++ String_of v ++ r)%list)
        (replaceTemplateVariables RegExp_replace b [(key, v)]).
Proof.
  intros E a b key v HE Hk Hv Ha. cbn [replaceTemplateVariables].
  rewrite !(HE key (String_of v) _ Hk). cbn [option_map]. f_equal.
  apply (replace_first (123%N :: (key ++ lit "}}")%list) (String_of v) a b
           Hv Ha).
Qed.

Lemma plain_value_inserted_witness :
  literal_on_plain_keys plain_engine
  /\ existsb syntax_character (lit "nome") = false
  /\ existsb (N.eqb 36) (String_of (VString (lit "Ana"))) = false
  /\ existsb (N.eqb 123) (lit "Ola ") = false
  /\ replaceTemplateVariables plain_engine
       (lit "Ola " ++ placeholder (lit "nome") ++ lit "!")%list
       [(lit "nome", VString (lit "Ana"))]
     = option_map (fun r => (lit "Ola " ++ lit "Ana" ++ r)%list)
         (replaceTemplateVariables plain_engine (lit "!")
            [(lit "nome", VString (lit "Ana"))]).
Proof.
  split; [exact plain_engine_literal |].
  repeat (split; [reflexivity |]).
  apply (plain_value_inserted plain_engine (lit "Ola ") (lit "!")
           (lit "nome") (VString (lit "Ana")) plain_engine_literal);
    reflexivity.
Defined.

(** ** One variable after the other *)

Lemma plain_lacks (c : N) (key : js_string) :
  syntax_character c = true ->
  existsb syntax_character key = false ->
  ~ In c key.
Proof.
  intros Hc Hk Hin.
  assert (existsb syntax_character key = true) as H; [| congruence].
  apply existsb_exists. exists c. auto.
Qed.

Lemma placeholder_no_dollar (key : js_string) :
  existsb syntax_character key = false ->
  existsb (N.eqb 36) (placeholder key) = false.
Proof.
  intros Hk. unfold placeholder. rewrite !existsb_app.
  replace (existsb (N.eqb 36) key) with false; [reflexivity |].
  symmetry. destruct (existsb (N.eqb 36) key) eqn:E; [| reflexivity].
  apply existsb_exists in E. destruct E as [c [Hc Ec]].
  apply N.eqb_eq in Ec. subst c.
  exfalso. apply (plain_lacks 36 key eq_refl Hk Hc).
Qed.

Lemma replace_whole (p replacement : js_string) :
  existsb (N.eqb 36) replacement = false ->
  replace (123%N :: p) replacement (123%N :: p) = replacement.
Proof.
  intros Hr. pose proof (replace_first p replacement [] [] Hr eq_refl) as H.
  cbn [app] in H. rewrite !app_nil_r in H. exact H.
Qed.

Lemma same_up_to_brace (k1 : js_string) :
  forall (k2 x y : js_string),
    ~ In 125%N k1 -> ~ In 125%N k2 ->
    (k1 ++ 125%N :: x)%list = (k2 ++ 125%N :: y)%list -> k1 = k2.
Proof.
  induction k1 as [| c k1 IH]; intros [| c' k2] x y H1 H2 E;
    cbn [app] in E.
  - reflexivity.
  - inversion E as [[Ec Er]]. exfalso. apply H2. left. auto.
  - inversion E as [[Ec Er]]. exfalso. apply H1. left. exact Ec.
  - inversion E as [[Ec Er]]. f_equal. apply (IH k2 x y).
    + intros H. apply H1. right. exact H.
    + intros H. apply H2. right. exact H.
    + exact Er.
Qed.

Lemma placeholders_differ (k1 k2 : js_string) :
  existsb syntax_character k1 = false ->
  existsb syntax_character k2 = false ->
  k1 <> k2 ->
  ~ occurs (placeholder k2) (placeholder k1).
Proof.
  intros P1 P2 Hne [a [b E]].
  change (placeholder k1) with (123 :: 123 :: (k1 ++ [125; 125]))%N%list in E.
  change (placeholder k2) with (123 :: 123 :: (k2 ++ [125; 125]))%N%list in E.
  destruct a as [| c1 [| c2 a]]; cbn [app] in E.
  - injection E as E2.
    rewrite <- app_assoc in E2. cbn [app] in E2. apply Hne.
    apply (same_up_to_brace k1 k2 [125%N] (125%N :: b));
      [apply plain_lacks | apply plain_lacks | exact E2]; auto.
  - injection E as _ E2.
    destruct k1 as [| c k1]; cbn [app] in E2; [discriminate E2 |].
    injection E2 as Ec _.
    apply (plain_lacks 123 (c :: k1) eq_refl P1). left. exact Ec.
  - injection E as _ _ E2.
    assert (In 123%N (k1 ++ [125; 125])%N%list) as Hin.
    { rewrite E2. apply in_or_app. right. left. reflexivity. }
    apply in_app_or in Hin. destruct Hin as [Hin | [Hin | [Hin | []]]];
      try discriminate Hin.
    apply (plain_lacks 123 k1 eq_refl P1 Hin).
Qed.

(** X21. Take an engine that treats keys without syntax characters
    literally, two different such keys, and a value without a dollar sign
    for the second.  The entries are applied in their order, each to the
    result of the one before.  When the first key's value is the
    placeholder of the second key and the entry of the second key comes
    after it, the text [{{first}}] ends as the second key's value; when the
    entry of the second key comes before it, the text ends as the
    placeholder [{{second}}], which nothing replaces any more. *)
Theorem later_key_replaces_earlier_value :
  forall (RegExp_replace : engine) (k1 k2 : js_string) (v2 : value),
    literal_on_plain_keys RegExp_replace ->
    existsb syntax_character k1 = false ->
    existsb syntax_character k2 = false ->
    k1 <> k2 ->
    existsb (N.eqb 36) (String_of v2) = false ->
    replaceTemplateVariables RegExp_replace (placeholder k1)
      [(k1, VString (placeholder k2)); (k2, v2)]
    = Some (String_of v2)
    /\ replaceTemplateVariables RegExp_replace (placeholder k1)
         [(k2, v2); (k1, VString (placeholder k2))]
       = Some (placeholder k2).
Proof.
  intros E k1 k2 v2 HE P1 P2 Hne Hv.
  assert (replace (placeholder k1) (placeholder k2) (placeholder k1)
          = placeholder k2) as R1.
  { apply (replace_whole (123%N :: (k1 ++ lit "}}")%list) (placeholder k2)).
    apply placeholder_no_dollar, P2. }
  assert (replace (placeholder k2) (String_of v2) (placeholder k2)
          = String_of v2) as R2.
  { apply (replace_whole (123%N :: (k2 ++ lit "}}")%list) (String_of v2) Hv). }
  assert (replace (placeholder k2) (String_of v2) (placeholder k1)
          = placeholder k1) as R3.
  { unfold replace. apply replace_from_no_match.
    apply placeholders_differ; assumption. }
  cbn [replaceTemplateVariables String_of]. split.
  - rewrite (HE k1 _ _ P1), R1, (HE k2 _ _ P2), R2. reflexivity.
  - rewrite (HE k2 _ _ P2), R3, (HE k1 _ _ P1), R1. reflexivity.
Qed.

Lemma later_key_replaces_earlier_value_witness :
  literal_on_plain_keys plain_engine
  /\ existsb syntax_character (lit "saudacao") = false
  /\ existsb syntax_character (lit "nome") = false
  /\ lit "saudacao" <> lit "nome"
  /\ existsb (N.eqb 36) (String_of (VString (lit "Ana"))) = false
  /\ replaceTemplateVariables plain_engine (placeholder (lit "saudacao"))
       [(lit "saudacao", VString (placeholder (lit "nome")));
        (lit "nome", VString (lit "Ana"))]
     = Some (lit "Ana")
  /\ replaceTemplateVariables plain_engine (placeholder (lit "saudacao"))
       [(lit "nome", VString (lit "Ana"));
        (lit "saudacao", VString (placeholder (lit "nome")))]
     = Some (placeholder (lit "nome")).
Proof.
  split; [exact plain_engine_literal |].
  split; [reflexivity | split; [reflexivity | split; [discriminate |]]].
  split; [reflexivity |].
  apply (later_key_replaces_earlier_value plain_engine (lit "saudacao")
           (lit "nome") (VString (lit "Ana")) plain_engine_literal);
    try reflexivity.
  discriminate.
Defined.

End EmailTemplatesFacts.
